(** * Vancouver weather dashboard: the statistics and query core

    A shallow embedding of [utils/calculations.js] (temperature summary,
    Pearson correlation, average, yearly aggregates, anomaly detection) and of
    the two query operations [searchData] and [getYearComparison] of the
    data-filter hook, with the properties the specification states about them.

    JavaScript numbers are IEEE 754 binary64 values; they are modelled by
    Rocq's primitive [float], whose operations are the same correctly rounded
    binary64 operations, so every definition below can be evaluated on
    concrete records. *)

From Stdlib Require Import ZArith Bool String Floats Lia.
From Stdlib Require Import List Sorted Permutation.
Import ListNotations.

Set Warnings "-inexact-float".
Local Open Scope float_scope.

(** ** JavaScript values *)

(** A numeric field of an observation record: a number, or absent as [null]
    or as [undefined]. *)
Inductive field : Type :=
| Num (f : float)
| Null
| Undefined.

(** A primitive JavaScript value, for the fields that are not numeric and for
    search criteria. *)
Inductive value : Type :=
| VUndefined
| VNull
| VBool (b : bool)
| VNum (f : float)
| VStr (s : string).

Definition value_of_field (v : field) : value :=
  match v with
  | Num f => VNum f
  | Null => VNull
  | Undefined => VUndefined
  end.

(** [v !== null && v !== undefined] *)
Definition present (v : field) : bool :=
  match v with
  | Num _ => true
  | Null | Undefined => false
  end.

(** ToNumber on a numeric field: [null] is [+0], [undefined] is [NaN]. *)
Definition ToNumber (v : field) : float :=
  match v with
  | Num f => f
  | Null => 0
  | Undefined => nan
  end.

(** ToBoolean of a number: [NaN], [+0] and [-0] are falsy. *)
Definition truthy_num (f : float) : bool := negb (is_nan f || (f =? 0)).

(** [v || 0] on a numeric field. *)
Definition or_zero (v : field) : float :=
  match v with
  | Num f => if truthy_num f then f else 0
  | Null | Undefined => 0
  end.

(** [a === b] on numeric fields. *)
Definition strict_eq (a b : field) : bool :=
  match a, b with
  | Num x, Num y => x =? y
  | Null, Null => true
  | Undefined, Undefined => true
  | _, _ => false
  end.

(** SameValueZero, the equality of [Set]: as [===] but [NaN] equals [NaN]. *)
Definition same_value_zero (a b : field) : bool :=
  match a, b with
  | Num x, Num y => (x =? y) || (is_nan x && is_nan y)
  | Null, Null => true
  | Undefined, Undefined => true
  | _, _ => false
  end.

(** [a === b] on primitive values. *)
Definition value_strict_eq (a b : value) : bool :=
  match a, b with
  | VUndefined, VUndefined => true
  | VNull, VNull => true
  | VBool x, VBool y => Bool.eqb x y
  | VNum x, VNum y => x =? y
  | VStr x, VStr y => String.eqb x y
  | _, _ => false
  end.

(** The length of an array as a number. *)
Definition length_num {A : Type} (l : list A) : float :=
  of_uint63 (Uint63.of_Z (Z.of_nat (List.length l))).

(** ** The [Math] functions the code calls

    [Math.sqrt] and [Math.abs] are the binary64 [sqrt] and [abs]. *)

(** [Math.max(...l)]: [-Infinity] for no argument, [NaN] when some argument is
    [NaN], and [+0] is larger than [-0]. *)
Definition max_step (highest number : float) : float :=
  if Leibniz.eqb number 0 && Leibniz.eqb highest (-0) then number
  else if highest <? number then number else highest.

Definition Math_max (l : list float) : float :=
  if existsb is_nan l then nan else fold_left max_step l neg_infinity.

(** [Math.min(...l)]: [+Infinity] for no argument. *)
Definition min_step (lowest number : float) : float :=
  if Leibniz.eqb number (-0) && Leibniz.eqb lowest 0 then number
  else if number <? lowest then number else lowest.

Definition Math_min (l : list float) : float :=
  if existsb is_nan l then nan else fold_left min_step l infinity.

(** [Math.round]: the integer nearest to [x], ties towards [+Infinity];
    [NaN], the infinities and the zeros are returned unchanged, and a
    negative [x] that rounds to zero gives [-0].  For a finite
    [x = ±m·2^e] with [e < 0] the integer is [floor (x + 1/2)], computed
    exactly. *)
Definition round_integer (s : bool) (m : positive) (e : Z) : Z :=
  let d := Z.pow 2 (- e) in
  ((2 * (if s then Zneg m else Zpos m) + d) / (2 * d))%Z.

Definition Math_round (x : float) : float :=
  match Prim2SF x with
  | S754_finite s m e =>
      if (0 <=? e)%Z then x
      else
        let n := round_integer s m e in
        if (n =? 0)%Z then (if s then neg_zero else zero)
        else
          let r := of_uint63 (Uint63.of_Z (Z.abs n)) in
          if (n <? 0)%Z then - r else r
  | _ => x
  end.

(** ** Observation records *)

Record WeatherRecord : Type := mkRecord {
  year : field;
  month : value;
  monthIndex : field;
  date : value;
  temp : field;
  tempMin : field;
  tempMax : field;
  rainfall : field;
  humidity : field;
  sunshine : field;
  climatePattern : value;
  extremeEvent : value
}.

(** The numeric properties a metric name can select with [d[metric]]. *)
Inductive Metric : Type :=
| Myear | MmonthIndex | Mtemp | MtempMin | MtempMax
| Mrainfall | Mhumidity | Msunshine.

Definition metric_of (d : WeatherRecord) (metric : Metric) : field :=
  match metric with
  | Myear => year d
  | MmonthIndex => monthIndex d
  | Mtemp => temp d
  | MtempMin => tempMin d
  | MtempMax => tempMax d
  | Mrainfall => rainfall d
  | Mhumidity => humidity d
  | Msunshine => sunshine d
  end.

(** [record[key]] for an arbitrary property name; a property the record does
    not have is [undefined]. *)
Definition prop_of (record : WeatherRecord) (key : string) : value :=
  if String.eqb key "year" then value_of_field (year record)
  else if String.eqb key "month" then month record
  else if String.eqb key "monthIndex" then value_of_field (monthIndex record)
  else if String.eqb key "date" then date record
  else if String.eqb key "temp" then value_of_field (temp record)
  else if String.eqb key "tempMin" then value_of_field (tempMin record)
  else if String.eqb key "tempMax" then value_of_field (tempMax record)
  else if String.eqb key "rainfall" then value_of_field (rainfall record)
  else if String.eqb key "humidity" then value_of_field (humidity record)
  else if String.eqb key "sunshine" then value_of_field (sunshine record)
  else if String.eqb key "climatePattern" then climatePattern record
  else if String.eqb key "extremeEvent" then extremeEvent record
  else VUndefined.

(** ** utils/calculations.js *)

(** [values.reduce((sum, val) => sum + val, 0)] *)
Definition sum_values (values : list field) : float :=
  fold_left (fun sum val => sum + ToNumber val) values 0.

(** [calculateAverage]: [0] for an empty array. *)
Definition calculateAverage (values : list field) : float :=
  match values with
  | [] => 0
  | _ => sum_values values / length_num values
  end.

Record TemperatureStats : Type := mkTemperatureStats {
  average : float;
  max : float;
  min : float;
  range : float;
  hottestMonth : value;
  coldestMonth : value
}.

(** [data.find((d) => d.tempMax === m)?.month] *)
Definition month_of_first (p : WeatherRecord -> bool)
    (data : list WeatherRecord) : value :=
  match find p data with
  | Some d => month d
  | None => VUndefined
  end.

(** [calculateTemperatureStats]; [None] is the [null] result, and a [None]
    argument a [null] or [undefined] one. *)
Definition calculateTemperatureStats (data : option (list WeatherRecord))
    : option TemperatureStats :=
  match data with
  | None => None
  | Some [] => None
  | Some data =>
      let temperatures := filter present (map temp data) in
      let maxTemps := filter present (map tempMax data) in
      let minTemps := filter present (map tempMin data) in
      let hi := Math_max (map ToNumber maxTemps) in
      let lo := Math_min (map ToNumber minTemps) in
      Some {| average := calculateAverage temperatures;
              max := hi;
              min := lo;
              range := hi - lo;
              hottestMonth :=
                month_of_first (fun d => strict_eq (tempMax d) (Num hi)) data;
              coldestMonth :=
                month_of_first (fun d => strict_eq (tempMin d) (Num lo)) data |}
  end.

(** [x.reduce((sum, xi, i) => sum + xi * y[i], 0)]; an index past the end of
    [y] reads [undefined], which multiplies as [NaN]. *)
Fixpoint sum_products_from (i : nat) (x y : list float) (sum : float) : float :=
  match x with
  | [] => sum
  | xi :: x' => sum_products_from (S i) x' y (sum + xi * nth i y nan)
  end.

Definition sum_squares (x : list float) : float :=
  fold_left (fun sum xi => sum + xi * xi) x 0.

Definition sum_floats (x : list float) : float :=
  fold_left (fun a b => a + b) x 0.

(** The product under the square root of the denominator. *)
Definition correlation_radicand (x y : list float) : float :=
  let n := length_num x in
  (n * sum_squares x - sum_floats x * sum_floats x)
  * (n * sum_squares y - sum_floats y * sum_floats y).

Definition correlation_numerator (x y : list float) : float :=
  length_num x * sum_products_from 0 x y 0 - sum_floats x * sum_floats y.

(** [calculateCorrelation] *)
Definition calculateCorrelation (x y : list float) : float :=
  if negb (Nat.eqb (List.length x) (List.length y))
     || Nat.eqb (List.length x) 0
  then 0
  else
    let numerator := correlation_numerator x y in
    let denominator := sqrt (correlation_radicand x y) in
    if denominator =? 0 then 0 else numerator / denominator.

(** [[...new Set(l)]]: the first occurrence of every value, in order. *)
Definition Set_add (s : list field) (v : field) : list field :=
  if existsb (same_value_zero v) s then s else s ++ [v].

Definition Set_from (l : list field) : list field := fold_left Set_add l [].

Record YearlyAggregate : Type := mkYearlyAggregate {
  agg_year : field;
  totalRainfall : float;
  avgTemp : float;
  avgHumidity : float;
  totalSunshine : float
}.

(** [yearData.reduce((sum, d) => sum + d.rainfall, 0)] *)
Definition sum_of (f : WeatherRecord -> field) (yearData : list WeatherRecord)
    : float :=
  fold_left (fun sum d => sum + ToNumber (f d)) yearData 0.

(** [calculateYearlyAggregates] *)
Definition calculateYearlyAggregates (yearlyData : list WeatherRecord)
    : list YearlyAggregate :=
  let years := Set_from (map year yearlyData) in
  map (fun y =>
         let yearData := filter (fun d => strict_eq (year d) y) yearlyData in
         {| agg_year := y;
            totalRainfall := Math_round (sum_of rainfall yearData);
            avgTemp :=
              Math_round (calculateAverage (map temp yearData) * 10) / 10;
            avgHumidity :=
              Math_round (calculateAverage (map humidity yearData));
            totalSunshine :=
              Math_round (sum_of sunshine yearData * 10) / 10 |})
      years.

(** [detectAnomalies], with its threshold given ([2] when the caller omits
    it).  [Math.pow] is an implementation-approximated function of the host,
    so it is a parameter of the model. *)
Section Anomalies.

Variable Math_pow : float -> float -> float.

Definition anomaly_mean (data : list WeatherRecord) (metric : Metric)
    : float :=
  calculateAverage (filter present (map (fun d => metric_of d metric) data)).

Definition anomaly_stdDev (data : list WeatherRecord) (metric : Metric)
    : float :=
  let values := filter present (map (fun d => metric_of d metric) data) in
  let mean := calculateAverage values in
  let variance :=
    calculateAverage
      (map (fun v => Num (Math_pow (ToNumber v - mean) 2)) values) in
  sqrt variance.

Definition detectAnomalies (data : list WeatherRecord) (metric : Metric)
    (threshold : float) : list WeatherRecord :=
  let mean := anomaly_mean data metric in
  let stdDev := anomaly_stdDev data metric in
  filter
    (fun d =>
       let value := metric_of d metric in
       threshold * stdDev <? abs (ToNumber value - mean))
    data.

End Anomalies.

(** ** The data-filter hook: [searchData] and [getYearComparison] *)

(** A callback either returns or throws a [TypeError]. *)
Inductive completion (A : Type) : Type :=
| Normal (a : A)
| TypeError.
Arguments Normal {A} a.
Arguments TypeError {A}.

(** [l.every(f)]: stops at the first [false]; an exception of [f] escapes. *)
Fixpoint every {A : Type} (f : A -> completion bool) (l : list A)
    : completion bool :=
  match l with
  | [] => Normal true
  | a :: l' =>
      match f a with
      | TypeError => TypeError
      | Normal false => Normal false
      | Normal true => every f l'
      end
  end.

(** [l.filter(f)] with a callback that may throw. *)
Fixpoint filter_c {A : Type} (f : A -> completion bool) (l : list A)
    : completion (list A) :=
  match l with
  | [] => Normal []
  | a :: l' =>
      match f a with
      | TypeError => TypeError
      | Normal b =>
          match filter_c f l' with
          | TypeError => TypeError
          | Normal r => Normal (if b then a :: r else r)
          end
      end
  end.

(** A criterion value: a primitive, or an object, of which only the [min] and
    [max] properties are read (an absent property reads [undefined]). *)
Inductive criterion : Type :=
| CValue (v : value)
| CObject (vmin vmax : value).

Definition is_undefined (v : value) : bool :=
  match v with
  | VUndefined => true
  | _ => false
  end.

Section Search.

(** StringToNumber of the host, applied when a string meets a value that is
    not a string in a comparison. *)
Variable StringToNumber : string -> float.

Definition value_to_number (v : value) : float :=
  match v with
  | VUndefined => nan
  | VNull => 0
  | VBool b => if b then 1 else 0
  | VNum f => f
  | VStr s => StringToNumber s
  end.

(** IsLessThan: [None] is the [undefined] outcome of a comparison with
    [NaN]; two strings are compared by code units. *)
Definition is_less_than (a b : value) : option bool :=
  match a, b with
  | VStr x, VStr y => Some (String.ltb x y)
  | _, _ =>
      let nx := value_to_number a in
      let ny := value_to_number b in
      if is_nan nx || is_nan ny then None else Some (nx <? ny)
  end.

(** [a >= b] *)
Definition js_ge (a b : value) : bool :=
  match is_less_than a b with
  | Some false => true
  | _ => false
  end.

(** [a <= b] *)
Definition js_le (a b : value) : bool :=
  match is_less_than b a with
  | Some false => true
  | _ => false
  end.

(** The callback of [every]: one criterion on one record.  [typeof null]
    is ["object"], and reading [null.min] throws. *)
Definition criterion_holds (record : WeatherRecord)
    (entry : string * criterion) : completion bool :=
  let (key, value) := entry in
  match value with
  | CValue VNull => TypeError
  | CValue v => Normal (value_strict_eq (prop_of record key) v)
  | CObject vmin vmax =>
      if negb (is_undefined vmin) && negb (is_undefined vmax) then
        let recordValue := prop_of record key in
        Normal (js_ge recordValue vmin && js_le recordValue vmax)
      else
        (* record[key] === value: a primitive is never the object *)
        Normal false
  end.

(** [searchData]; [yearly = None] is a [data] without a [yearly] array, and
    [criteria] lists [Object.entries(criteria)] in order. *)
Definition searchData (yearly : option (list WeatherRecord))
    (criteria : list (string * criterion))
    : completion (list WeatherRecord) :=
  match yearly with
  | None => Normal []
  | Some records =>
      filter_c (fun record => every (criterion_holds record) criteria)
               records
  end.

End Search.

Record MetricDifference : Type := mkMetricDifference {
  md_year1 : float;
  md_year2 : float;
  difference : float;
  percentChange : float
}.

Record YearComparison : Type := mkYearComparison {
  cmp_year1 : field;
  cmp_year2 : field;
  differences : list (Metric * MetricDifference)
}.

Definition comparison_metrics : list Metric :=
  [Mtemp; Mrainfall; Mhumidity; Msunshine].

(** [data.reduce((sum, d) => sum + (d[metric] || 0), 0) / data.length] *)
Definition year_average (data : list WeatherRecord) (metric : Metric) : float :=
  fold_left (fun sum d => sum + or_zero (metric_of d metric)) data 0
  / length_num data.

Definition metric_difference (data1 data2 : list WeatherRecord)
    (metric : Metric) : MetricDifference :=
  let avg1 := year_average data1 metric in
  let avg2 := year_average data2 metric in
  {| md_year1 := avg1;
     md_year2 := avg2;
     difference := avg2 - avg1;
     percentChange :=
       if negb (avg1 =? 0) then ((avg2 - avg1) / avg1) * 100 else 0 |}.

(** [getYearComparison]; [None] is the [null] result. *)
Definition getYearComparison (yearly : option (list WeatherRecord))
    (year1 year2 : field) : option YearComparison :=
  match yearly with
  | None => None
  | Some records =>
      let data1 := filter (fun d => strict_eq (year d) year1) records in
      let data2 := filter (fun d => strict_eq (year d) year2) records in
      match data1, data2 with
      | [], _ | _, [] => None
      | _, _ =>
          Some {| cmp_year1 := year1;
                  cmp_year2 := year2;
                  differences :=
                    map (fun metric =>
                           (metric, metric_difference data1 data2 metric))
                        comparison_metrics |}
      end
  end.

(** ** Sample records *)

(** A record that carries just a year and the four compared metrics. *)
Definition obs (y : field) (t r h s : field) : WeatherRecord :=
  {| year := y; month := VUndefined; monthIndex := Undefined;
     date := VUndefined; temp := t; tempMin := Undefined;
     tempMax := Undefined; rainfall := r; humidity := h; sunshine := s;
     climatePattern := VUndefined; extremeEvent := VUndefined |}.

(** A record of the monthly climatology: a month label and temperatures. *)
Definition monthly (m : string) (t tmin tmax : field) : WeatherRecord :=
  {| year := Undefined; month := VStr m; monthIndex := Undefined;
     date := VUndefined; temp := t; tempMin := tmin;
     tempMax := tmax; rainfall := Undefined; humidity := Undefined;
     sunshine := Undefined;
     climatePattern := VUndefined; extremeEvent := VUndefined |}.

(** ** Order keys of binary64 values *)

(** An order-preserving key for the values that are not [NaN]: the sign
    class first, then exponent and mantissa, both negated below zero. *)
Definition key (x : spec_float) : Z * Z * Z :=
  match x with
  | S754_nan => (0, 0, 0)
  | S754_zero _ => (0, 0, 0)
  | S754_infinity true => (-2, 0, 0)
  | S754_infinity false => (2, 0, 0)
  | S754_finite true m e => (-1, - e, Zneg m)
  | S754_finite false m e => (1, e, Zpos m)
  end%Z.

Definition not_nan (x : spec_float) : Prop := x <> S754_nan.

Definition key_lt (a b : Z * Z * Z) : Prop :=
  let '(a1, a2, a3) := a in
  let '(b1, b2, b3) := b in
  (a1 < b1 \/ (a1 = b1 /\ (a2 < b2 \/ (a2 = b2 /\ a3 < b3))))%Z.

Definition key_eq (a b : Z * Z * Z) : Prop :=
  let '(a1, a2, a3) := a in
  let '(b1, b2, b3) := b in
  (a1 = b1 /\ a2 = b2 /\ a3 = b3)%Z.

(** The comparisons of [float] read on keys. *)
Definition fkey (x : float) : Z * Z * Z := key (Prim2SF x).
Definition number (x : float) : Prop := not_nan (Prim2SF x).

Definition key_le (a b : Z * Z * Z) : Prop :=
  let '(a1, a2, a3) := a in
  let '(b1, b2, b3) := b in
  (a1 < b1 \/ (a1 = b1 /\ (a2 < b2 \/ (a2 = b2 /\ a3 <= b3))))%Z.

(** ** Definitions that follow the specification's words *)

(** The sum of the pairwise products of two arrays, taken pair by pair. *)
Definition zip_sum (x y : list float) (sum : float) : float :=
  fold_left (fun sum p => sum + fst p * snd p) (combine x y) sum.

(** "The records of a year": those whose [year] is strictly equal to it. *)
Definition records_of_year (records : list WeatherRecord) (y : field)
    : list WeatherRecord :=
  filter (fun d => strict_eq (year d) y) records.

(** "The mean over only the present values" of a metric. *)
Definition mean_of_present (data : list WeatherRecord) (metric : Metric)
    : float :=
  calculateAverage (filter present (map (fun d => metric_of d metric) data)).

(** The mean over all the records, a value that is missing, [NaN] or zero
    counting as [0]. *)
Definition mean_with_zero (data : list WeatherRecord) (metric : Metric)
    : float :=
  calculateAverage (map (fun d => Num (or_zero (metric_of d metric))) data).

(** A field that is [null] or [undefined]. *)
Definition missing (v : field) : Prop := present v = false.

(** A metric value that [v || 0] keeps: a number other than [NaN], [+0] and
    [-0]. *)
Definition kept (v : field) : Prop :=
  match v with
  | Num f => truthy_num f = true
  | Null | Undefined => False
  end.

(** Three records of two years; the second misses its temperature. *)
Definition two_years : list WeatherRecord :=
  [ obs (Num 2020) (Num 10) (Num 100) (Num 80) (Num 5);
    obs (Num 2020) Null (Num 110) (Num 82) (Num 6);
    obs (Num 2021) (Num 12) (Num 90) (Num 78) (Num 7) ].

(** Three months whose three temperatures are all [0.1]. *)
Definition tenths : list WeatherRecord :=
  [ monthly "Jan" (Num 0.1) (Num 0.1) (Num 0.1);
    monthly "Feb" (Num 0.1) (Num 0.1) (Num 0.1);
    monthly "Mar" (Num 0.1) (Num 0.1) (Num 0.1) ].

(** A month whose mean temperature is below its minimum. *)
Definition inverted : list WeatherRecord :=
  [ monthly "Jan" (Num 10) (Num 20) (Num 30) ].





(** "A record satisfies a criterion": within the two bounds, both inclusive,
    for a range object, and strictly equal to the criterion value otherwise;
    a record value, being primitive, is never equal to an object. *)
Definition satisfies (StringToNumber : string -> float)
    (record : WeatherRecord) (entry : string * criterion) : bool :=
  let v := prop_of record (fst entry) in
  match snd entry with
  | CValue c => value_strict_eq v c
  | CObject vmin vmax =>
      if is_undefined vmin || is_undefined vmax then false
      else js_ge StringToNumber v vmin && js_le StringToNumber v vmax
  end.

(** No criterion value is [null]. *)
Definition null_free (criteria : list (string * criterion)) : Prop :=
  Forall (fun entry => snd entry <> CValue VNull) criteria.

(** ** Rounding in binary64 *)

Section RoundingDefinitions.

Local Open Scope Z_scope.

(** After [k] shifts to the right of the mantissa [M], the record holds
    [floor (M / 2^k)] and its two bits place the remainder with respect to
    half a unit: none, below, at, or above. *)
Definition shr_inv (M k : Z) (rec : shr_record) : Prop :=
  let p := 2 ^ k in
  let m := shr_m rec in
  0 <= m /\ p * m <= M < p * (m + 1)
  /\ match shr_r rec, shr_s rec with
     | false, false => M = p * m
     | false, true => p * m < M /\ 2 * (M - p * m) < p
     | true, false => 2 * (M - p * m) = p
     | true, true => p < 2 * (M - p * m)
     end.

(** [q] is [M / 2^k] rounded to the nearest integer, a tie going to the
    even one. *)
Definition rne (M k q : Z) : Prop :=
  let p := 2 ^ k in
  (2 * q - 1) * p <= 2 * M <= (2 * q + 1) * p
  /\ (2 * M = (2 * q + 1) * p -> Z.even q = true)
  /\ (2 * M = (2 * q - 1) * p -> Z.even q = true).

(** The value [binary_round_aux] builds from the rounded mantissa [q] at the
    exponent [e]: a mantissa that reached [2^prec] is halved, and an exponent
    above the format gives an infinity. *)
Definition norm (sx : bool) (q e : Z) : spec_float :=
  match q with
  | Z0 => S754_zero sx
  | Zpos m =>
      if q <? 2 ^ prec then
        if e <=? emax - prec then S754_finite sx m e else S754_infinity sx
      else
        if e + 1 <=? emax - prec then S754_finite sx (Pos.div2 m) (e + 1)
        else S754_infinity sx
  | Zneg _ => S754_nan
  end.

(** The key of [norm false q f]. *)
Definition nkey (q f : Z) : Z * Z * Z :=
  if q =? 0 then (0, 0, 0)
  else if q <? 2 ^ 53 then (if f <=? 971 then (1, f, q) else (2, 0, 0))
  else (if f + 1 <=? 971 then (1, f + 1, 2 ^ 52) else (2, 0, 0)).

(** The exponent of a finite value of the format is the one its number of
    digits prescribes. *)
Definition canonical (m : positive) (e : Z) : Prop :=
  e = Z.max (Zpos (digits2_pos m) + e - 53) (-1074).

(** The key of the opposite value. *)
Definition kneg (a : Z * Z * Z) : Z * Z * Z :=
  let '(a1, a2, a3) := a in (- a1, - a2, - a3).

(** The exponent at which the product of two mantissas is rounded. *)
Definition product_exponent (m ms : positive) (e es : Z) : Z :=
  Z.max (Zpos (digits2_pos (m * ms)) + (e + es) - 53) (-1074).

(** A standard deviation is [NaN], a zero, [+Infinity] or positive. *)
Definition deviation_shape (x : spec_float) : Prop :=
  match x with
  | S754_nan | S754_zero _ | S754_infinity false | S754_finite false _ _ => True
  | _ => False
  end.

End RoundingDefinitions.

(** [Math.pow] at the exponent 2, by one multiplication; it is used in the
    examples only. *)
Definition square_pow (base exponent : float) : float := base * base.

(** Two records of one year; the second misses its temperature. *)
Definition one_missing : list WeatherRecord :=
  [ obs (Num 2020) (Num 5) (Num 100) (Num 80) (Num 5);
    obs (Num 2020) Null (Num 110) (Num 82) (Num 6) ].

(** * More of the code: definitions *)

(** ** utils/calculations.js: rainfall statistics and moving average *)

Module Rainfall.

Record Stats : Type := mkStats {
  total : float;
  average : float;
  max : float;
  min : float;
  wettest : value;
  driest : value
}.

End Rainfall.

(** [calculateRainfallStats]; [None] is the [null] result, and a [None]
    argument a [null] or [undefined] one. *)
Definition calculateRainfallStats (data : option (list WeatherRecord))
    : option Rainfall.Stats :=
  match data with
  | None => None
  | Some [] => None
  | Some data =>
      let rainfallValues := filter present (map rainfall data) in
      let hi := Math_max (map ToNumber rainfallValues) in
      let lo := Math_min (map ToNumber rainfallValues) in
      Some {| Rainfall.total := sum_values rainfallValues;
              Rainfall.average := calculateAverage rainfallValues;
              Rainfall.max := hi;
              Rainfall.min := lo;
              Rainfall.wettest :=
                month_of_first (fun d => strict_eq (rainfall d) (Num hi)) data;
              Rainfall.driest :=
                month_of_first (fun d => strict_eq (rainfall d) (Num lo)) data |}
  end.

(** The present values of a field are numbers other than [NaN]. *)
Definition no_nan (f : WeatherRecord -> field) (data : list WeatherRecord)
    : Prop :=
  Forall (fun d => match f d with
                   | Num v => is_nan v = false
                   | Null | Undefined => True
                   end) data.

(** [d] is the first record of [data] that satisfies [p]. *)
Definition first_match (p : WeatherRecord -> bool) (data : list WeatherRecord)
    (d : WeatherRecord) : Prop :=
  exists before after,
    data = before ++ d :: after
    /\ p d = true
    /\ Forall (fun d' => p d' = false) before.

(** [l.slice(start, end)]: a negative index counts from the end, and both
    are clamped to the array. *)
Definition slice_index (len i : Z) : Z :=
  if (i <? 0)%Z then Z.max (len + i) 0 else Z.min i len.

Definition slice {A : Type} (l : list A) (start finish : Z) : list A :=
  let len := Z.of_nat (List.length l) in
  let k := slice_index len start in
  let final := slice_index len finish in
  firstn (Z.to_nat (final - k)) (skipn (Z.to_nat k) l).

(** [calculateMovingAverage], for a window that is an integer:
    [Math.floor(window / 2)] is then [window / 2] rounded down and
    [Math.ceil(window / 2)] is [(window + 1) / 2] rounded down.  The loop
    pushes one average per index. *)
Definition calculateMovingAverage (data : list field) (window : Z)
    : list float :=
  map (fun i =>
         let i := Z.of_nat i in
         let start := Z.max 0 (i - window / 2) in
         let finish :=
           Z.min (Z.of_nat (List.length data)) (i + (window + 1) / 2) in
         let subset := slice data start finish in
         calculateAverage subset)
      (seq 0 (List.length data)).

(** A number with [-0] read as [+0]. *)
Definition without_negative_zero (v : float) : float :=
  if Leibniz.eqb v (-0) then 0 else v.

(** ** hooks/useDataFiltering.js: the other queries *)

(** The [data] object of the hook: a [monthly] and a [yearly] array, either
    of which may be absent. *)
Module Data.

Record t : Type := mk {
  monthly : option (list WeatherRecord);
  yearly : option (list WeatherRecord)
}.

End Data.

(** [a || []] on an array that may be absent. *)
Definition or_empty (a : option (list WeatherRecord)) : list WeatherRecord :=
  match a with
  | Some l => l
  | None => []
  end.

(** [getFilteredData].  [parseInt] is the function of the host; it is a
    parameter of the model. *)
Section FilteredData.

Variable parseInt : value -> float.

Definition getFilteredData (data : option Data.t) (selectedYear : value)
    : list WeatherRecord :=
  match data with
  | None => []
  | Some data =>
      match Data.monthly data, Data.yearly data with
      | None, None => []
      | _, _ =>
          if value_strict_eq selectedYear (VStr "all")
          then or_empty (Data.monthly data)
          else
            let parsed := parseInt selectedYear in
            filter (fun d => strict_eq (year d) (Num parsed))
                   (or_empty (Data.yearly data))
      end
  end.

End FilteredData.

(** [isNaN(v)] on a numeric field. *)
Definition isNaN (v : field) : bool := is_nan (ToNumber v).

Module Summary.

Record t : Type := mk {
  min : float;
  max : float;
  avg : float;
  total : option float
}.

End Summary.

(** [dataset || data?.monthly || []] *)
Definition working_data (data : option Data.t)
    (dataset : option (list WeatherRecord)) : list WeatherRecord :=
  match dataset with
  | Some l => l
  | None =>
      match data with
      | Some data => or_empty (Data.monthly data)
      | None => []
      end
  end.

Definition summary_metrics : list Metric :=
  [Mtemp; MtempMin; MtempMax; Mrainfall; Mhumidity; Msunshine].

(** The values of a metric that [getDataSummary] keeps. *)
Definition summary_values (workingData : list WeatherRecord) (metric : Metric)
    : list float :=
  map ToNumber
      (filter (fun v => present v && negb (isNaN v))
              (map (fun d => metric_of d metric) workingData)).

Definition is_total_metric (metric : Metric) : bool :=
  match metric with
  | Mrainfall | Msunshine => true
  | _ => false
  end.

(** The body of [metrics.forEach]: the entry set for one metric, if any. *)
Definition metric_summary (workingData : list WeatherRecord)
    (metric : Metric) : list (Metric * Summary.t) :=
  let values := summary_values workingData metric in
  match values with
  | [] => []
  | _ =>
      [(metric,
        {| Summary.min := Math_min values;
           Summary.max := Math_max values;
           Summary.avg := sum_floats values / length_num values;
           Summary.total :=
             if is_total_metric metric then Some (sum_floats values)
             else None |})]
  end.

(** [getDataSummary]; the summary object is the list of its entries, in the
    order they are set, and [None] for [total] is [null]. *)
Definition getDataSummary (data : option Data.t)
    (dataset : option (list WeatherRecord))
    : option (list (Metric * Summary.t)) :=
  let workingData := working_data data dataset in
  match workingData with
  | [] => None
  | _ => Some (flat_map (metric_summary workingData) summary_metrics)
  end.

(** ** The pages: seasonal summaries and the correlation matrix *)

(** [months.includes(d.month)] for an array of month labels. *)
Definition includes (months : list string) (v : value) : bool :=
  match v with
  | VStr s => existsb (String.eqb s) months
  | _ => false
  end.

(** [data.reduce((sum, d) => sum + d.temp, 0) / data.length], with no guard
    on an empty array. *)
Definition unguarded_mean (f : WeatherRecord -> field)
    (data : list WeatherRecord) : float :=
  sum_of f data / length_num data.

(** [calculateSeasonalVariation] of the temperature page. *)
Definition calculateSeasonalVariation (data : list WeatherRecord) : float :=
  let winter := filter (fun d => includes ["Dec"; "Jan"; "Feb"]%string (month d))
                       data in
  let summer := filter (fun d => includes ["Jun"; "Jul"; "Aug"]%string (month d))
                       data in
  let winterAvg := unguarded_mean temp winter in
  let summerAvg := unguarded_mean temp summer in
  summerAvg - winterAvg.

Module Overview.

Record SeasonSummary : Type := mkSeasonSummary {
  season : string;
  avgTemp : float;
  totalRainfall : float;
  avgHumidity : float;
  totalSunshine : float
}.

(** The four seasons of the overview page, in the order of the object. *)
Definition seasons : list (string * list string) :=
  [ ("Winter", ["Dec"; "Jan"; "Feb"]);
    ("Spring", ["Mar"; "Apr"; "May"]);
    ("Summer", ["Jun"; "Jul"; "Aug"]);
    ("Fall", ["Sep"; "Oct"; "Nov"]) ]%string.

(** [getSeasonalData] of the overview page. *)
Definition getSeasonalData (data : list WeatherRecord)
    : list SeasonSummary :=
  map (fun entry =>
         let seasonData :=
           filter (fun d => includes (snd entry) (month d)) data in
         {| season := fst entry;
            avgTemp := unguarded_mean temp seasonData;
            totalRainfall := sum_of rainfall seasonData;
            avgHumidity := unguarded_mean humidity seasonData;
            totalSunshine := sum_of sunshine seasonData |})
      seasons.

End Overview.

Definition metric_eqb (a b : Metric) : bool :=
  match a, b with
  | Myear, Myear | MmonthIndex, MmonthIndex | Mtemp, Mtemp
  | MtempMin, MtempMin | MtempMax, MtempMax | Mrainfall, Mrainfall
  | Mhumidity, Mhumidity | Msunshine, Msunshine => true
  | _, _ => false
  end.

(** The variables of the correlation page. *)
Definition correlation_variables : list Metric :=
  [Mtemp; Mrainfall; Mhumidity; Msunshine].

(** The coefficient the page computes for the pair [var1], [var2], if the
    two filtered arrays have one length that is not zero. *)
Definition matrix_entry (data : list WeatherRecord) (var1 var2 : Metric)
    : option float :=
  let values1 := filter present (map (fun d => metric_of d var1) data) in
  let values2 := filter present (map (fun d => metric_of d var2) data) in
  if Nat.eqb (List.length values1) (List.length values2)
     && Nat.ltb 0 (List.length values1)
  then Some (calculateCorrelation (map ToNumber values1)
                                  (map ToNumber values2))
  else None.

(** [correlationMatrix] of the correlation page: the object as the list of
    its entries, the key ["var1-var2"] being the pair. *)
Definition correlationMatrix (data : option (list WeatherRecord))
    : list ((Metric * Metric) * float) :=
  match data with
  | None => []
  | Some [] => []
  | Some data =>
      flat_map
        (fun var1 =>
           flat_map
             (fun var2 =>
                if negb (metric_eqb var1 var2) then
                  match matrix_entry data var1 var2 with
                  | Some r => [((var1, var2), r)]
                  | None => []
                  end
                else [])
             correlation_variables)
        correlation_variables
  end.

(** [matrix[`${var1}-${var2}`]] *)
Definition matrix_get (matrix : list ((Metric * Metric) * float))
    (var1 var2 : Metric) : option float :=
  option_map snd
    (find (fun e => metric_eqb (fst (fst e)) var1
                    && metric_eqb (snd (fst e)) var2) matrix).

(** ** Sorting, and the queries of the hook that sort *)

(** [Array.prototype.sort(comparefn)] on an array without holes and
    without [undefined]: the sort is stable, and with a consistent
    comparison function its result is the one of this insertion sort.  A
    result of [comparefn] that is not above zero, [NaN] included, leaves
    the first argument first. *)
Fixpoint sort_insert {A : Type} (comparefn : A -> A -> float) (x : A)
    (sorted : list A) : list A :=
  match sorted with
  | [] => [x]
  | y :: rest =>
      if 0 <? comparefn x y then y :: sort_insert comparefn x rest
      else x :: sorted
  end.

Definition sort {A : Type} (comparefn : A -> A -> float) (l : list A)
    : list A :=
  fold_right (sort_insert comparefn) [] l.



(** [data?.yearly] *)
Definition yearly_of (data : option Data.t) : option (list WeatherRecord) :=
  match data with
  | Some data => Data.yearly data
  | None => None
  end.


(** [getMonthAcrossYears] *)
Definition getMonthAcrossYears (data : option Data.t) (monthName : value)
    : list WeatherRecord :=
  match yearly_of data with
  | None => []
  | Some yearly =>
      sort (fun a b => ToNumber (year a) - ToNumber (year b))
           (filter (fun d => value_strict_eq (month d) monthName) yearly)
  end.

(** The default values of the parameters of [getExtremeRecords]: an
    [undefined] type is ["max"], and a limit left out is [5]. *)
Definition type_or_max (type : value) : value :=
  match type with
  | VUndefined => VStr "max"
  | _ => type
  end.

Definition limit_or_5 (limit : option Z) : Z :=
  match limit with
  | Some n => n
  | None => 5%Z
  end.

(** [getExtremeRecords], for a limit that is an integer. *)
Definition getExtremeRecords (data : option Data.t) (metric : Metric)
    (type : value) (limit : option Z) : list WeatherRecord :=
  let type := type_or_max type in
  let limit := limit_or_5 limit in
  match yearly_of data with
  | None => []
  | Some yearly =>
      let sortedData :=
        sort (fun a b =>
                let aValue := or_zero (metric_of a metric) in
                let bValue := or_zero (metric_of b metric) in
                if value_strict_eq type (VStr "max") then bValue - aValue
                else aValue - bValue)
             yearly in
      slice sortedData 0 limit
  end.

(** The values above zero. *)
Definition positive_sf (x : spec_float) : bool :=
  match x with
  | S754_infinity false | S754_finite false _ _ => true
  | _ => false
  end.

(** * Properties *)

(** ** Binary64 facts

    The operations on [float] are specified by the functions of [SpecFloat]
    on [spec_float]; the facts below are proved there and carried over. *)

(** Multiplication does not depend on the order of its operands. *)
Lemma SFmul_comm (x y : spec_float) :
  SFmul prec emax x y = SFmul prec emax y x.
Proof.
  destruct x as [sx|sx| |sx mx ex], y as [sy|sy| |sy my ey]; simpl;
    rewrite ?(xorb_comm sx sy); try reflexivity.
  now rewrite Pos.mul_comm, Z.add_comm.
Qed.

Lemma float_mul_comm (a b : float) : a * b = b * a.
Proof.
  apply Prim2SF_inj. rewrite !mul_spec. apply SFmul_comm.
Qed.

(** Decides a characterisation of [SFcompare x y = Some c] by keys: every
    pair of shapes and signs is settled by [lia], after the comparison of two
    finite values of one sign is split on exponents and mantissas. *)
Ltac settle_side :=
  split;
  [ let H := fresh "H" in
    intros H; try discriminate H; repeat split; try discriminate; lia
  | let H1 := fresh "H" in let H2 := fresh "H" in let H3 := fresh "H" in
    intros (H1 & H2 & H3); try reflexivity;
    try (exfalso; congruence); try (exfalso; lia) ].

Ltac compare_by_keys x y :=
  unfold not_nan;
  let sx := fresh "sx" in let sy := fresh "sy" in
  let mx := fresh "mx" in let my := fresh "my" in
  let ex := fresh "ex" in let ey := fresh "ey" in
  destruct x as [sx|sx| |sx mx ex], y as [sy|sy| |sy my ey]; simpl;
  try destruct sx; try destruct sy; simpl;
  try settle_side;
  rewrite Pos.compare_cont_spec; simpl;
  destruct (Z.compare_spec ex ey), (Pos.compare_spec mx my); simpl;
  settle_side.

Lemma SFcompare_Lt (x y : spec_float) :
  SFcompare x y = Some Lt <->
  not_nan x /\ not_nan y /\ key_lt (key x) (key y).
Proof. compare_by_keys x y. Qed.

Lemma SFcompare_Eq (x y : spec_float) :
  SFcompare x y = Some Eq <->
  not_nan x /\ not_nan y /\ key_eq (key x) (key y).
Proof. compare_by_keys x y. Qed.

Lemma SFcompare_Gt (x y : spec_float) :
  SFcompare x y = Some Gt <->
  not_nan x /\ not_nan y /\ key_lt (key y) (key x).
Proof. compare_by_keys x y. Qed.

Lemma SFcompare_None (x y : spec_float) :
  SFcompare x y = None <-> x = S754_nan \/ y = S754_nan.
Proof.
  destruct x as [sx|sx| |sx mx ex], y as [sy|sy| |sy my ey]; simpl;
    try destruct sx; try destruct sy;
    split; intros H; try discriminate H; try tauto;
    destruct H as [H|H]; discriminate H.
Qed.

Lemma ltb_iff (x y : float) :
  (x <? y) = true <-> number x /\ number y /\ key_lt (fkey x) (fkey y).
Proof.
  rewrite ltb_spec. unfold SFltb, number, fkey.
  rewrite <- SFcompare_Lt.
  destruct (SFcompare (Prim2SF x) (Prim2SF y)) as [[| |]|];
    split; intros H; try reflexivity; discriminate H.
Qed.

Lemma eqb_iff (x y : float) :
  (x =? y) = true <-> number x /\ number y /\ key_eq (fkey x) (fkey y).
Proof.
  rewrite eqb_spec. unfold SFeqb, number, fkey.
  rewrite <- SFcompare_Eq.
  destruct (SFcompare (Prim2SF x) (Prim2SF y)) as [[| |]|];
    split; intros H; try reflexivity; discriminate H.
Qed.

Lemma leb_iff (x y : float) :
  (x <=? y) = true <-> number x /\ number y /\ key_le (fkey x) (fkey y).
Proof.
  rewrite leb_spec. unfold SFleb, number, fkey.
  destruct (SFcompare (Prim2SF x) (Prim2SF y)) as [[| |]|] eqn:E.
  - apply SFcompare_Eq in E. destruct E as (Hx & Hy & E).
    split; [intros _|reflexivity]. repeat split; trivial.
    unfold key_eq, key_le in *.
    destruct (key (Prim2SF x)) as [[? ?] ?], (key (Prim2SF y)) as [[? ?] ?].
    lia.
  - apply SFcompare_Lt in E. destruct E as (Hx & Hy & E).
    split; [intros _|reflexivity]. repeat split; trivial.
    unfold key_lt, key_le in *.
    destruct (key (Prim2SF x)) as [[? ?] ?], (key (Prim2SF y)) as [[? ?] ?].
    lia.
  - apply SFcompare_Gt in E. destruct E as (Hx & Hy & E).
    split; [discriminate|]. intros (_ & _ & H). exfalso.
    unfold key_lt, key_le in *.
    destruct (key (Prim2SF x)) as [[? ?] ?], (key (Prim2SF y)) as [[? ?] ?].
    lia.
  - apply SFcompare_None in E.
    split; [discriminate|]. intros (Hx & Hy & _). exfalso.
    unfold not_nan in *. tauto.
Qed.

Lemma is_nan_false (x : float) : is_nan x = false <-> number x.
Proof.
  unfold is_nan. rewrite negb_false_iff, eqb_iff. unfold key_eq.
  destruct (fkey x) as [[? ?] ?]. tauto.
Qed.

Lemma is_nan_true (x : float) : is_nan x = true <-> Prim2SF x = S754_nan.
Proof.
  destruct (is_nan x) eqn:E.
  - split; trivial. intros _.
    destruct (Prim2SF x) eqn:P; trivial;
      assert (N : number x)
        by (unfold number, not_nan; rewrite P; discriminate);
      apply is_nan_false in N; congruence.
  - apply is_nan_false in E. split; [discriminate|]. intros H. now elim E.
Qed.

(** Turns every comparison in the context and the goal into inequalities
    on keys and lets [lia] conclude. *)
Ltac by_keys :=
  repeat match goal with
  | H : (_ <? _) = true |- _ => apply ltb_iff in H; destruct H as (? & ? & H)
  | H : (_ <=? _) = true |- _ => apply leb_iff in H; destruct H as (? & ? & H)
  | H : (_ =? _) = true |- _ => apply eqb_iff in H; destruct H as (? & ? & H)
  | H : is_nan _ = false |- _ => apply is_nan_false in H
  end;
  try match goal with
  | |- (_ <? _) = true => apply ltb_iff; repeat split; trivial
  | |- (_ <=? _) = true => apply leb_iff; repeat split; trivial
  | |- (_ =? _) = true => apply eqb_iff; repeat split; trivial
  end;
  unfold key_lt, key_le, key_eq in *;
  repeat match goal with
  | H : context [fkey ?x] |- _ =>
      let a := fresh "a" in let b := fresh "b" in let c := fresh "c" in
      destruct (fkey x) as [[a b] c]
  | |- context [fkey ?x] =>
      let a := fresh "a" in let b := fresh "b" in let c := fresh "c" in
      destruct (fkey x) as [[a b] c]
  end;
  try lia.

Lemma leb_trans (x y z : float) :
  (x <=? y) = true -> (y <=? z) = true -> (x <=? z) = true.
Proof. intros H1 H2. by_keys. Qed.

Lemma leb_refl (x : float) : is_nan x = false -> (x <=? x) = true.
Proof. intros H. by_keys. Qed.

Lemma ltb_leb (x y : float) : (x <? y) = true -> (x <=? y) = true.
Proof. intros H. by_keys. Qed.

Lemma leb_ltb_trans (x y z : float) :
  (x <=? y) = true -> (y <? z) = true -> (x <? z) = true.
Proof. intros H1 H2. by_keys. Qed.

(** Two numbers are always comparable. *)
Lemma not_ltb_leb (x y : float) :
  is_nan x = false -> is_nan y = false ->
  (x <? y) = false -> (y <=? x) = true.
Proof.
  intros Hx Hy H.
  apply is_nan_false in Hx, Hy.
  apply leb_iff. repeat split; trivial.
  assert (N : ~ key_lt (fkey x) (fkey y)).
  { intros K. assert (T : (x <? y) = true) by (apply ltb_iff; tauto).
    congruence. }
  unfold key_lt, key_le in *.
  destruct (fkey x) as [[? ?] ?], (fkey y) as [[? ?] ?]. lia.
Qed.

Lemma eqb_sym (x y : float) : (x =? y) = (y =? x).
Proof.
  destruct (x =? y) eqn:E, (y =? x) eqn:F; trivial.
  - rewrite <- F. symmetry. by_keys.
  - rewrite <- E. by_keys.
Qed.

(** ** Temperature summary *)

Lemma filter_present_nil (f : WeatherRecord -> field)
    (data : list WeatherRecord) :
  Forall (fun d => missing (f d)) data -> filter present (map f data) = [].
Proof.
  induction 1 as [|d data Hd _ IH]; simpl; trivial.
  unfold missing in Hd. now rewrite Hd.
Qed.

Lemma find_none_missing (f : WeatherRecord -> field) (m : float)
    (data : list WeatherRecord) :
  Forall (fun d => missing (f d)) data ->
  find (fun d => strict_eq (f d) (Num m)) data = None.
Proof.
  induction 1 as [|d data Hd _ IH]; simpl; trivial.
  unfold missing in Hd. destruct (f d); simpl in *; try discriminate; exact IH.
Qed.

(** C2, what the code does: for a record list that is not empty but in which
    every record misses [temp], [tempMin] and [tempMax], the summary is not
    [null]: the emptiness test is made before the missing values are filtered
    out, so the result carries [max = -Infinity], [min = +Infinity] and
    [range = -Infinity] (and the average [0] of no value). *)
Theorem temperature_stats_all_missing (data : list WeatherRecord) :
  data <> [] ->
  Forall (fun d => missing (temp d) /\ missing (tempMin d)
                   /\ missing (tempMax d)) data ->
  calculateTemperatureStats (Some data)
  = Some {| average := 0; max := neg_infinity; min := infinity;
            range := neg_infinity;
            hottestMonth := VUndefined; coldestMonth := VUndefined |}.
Proof.
  intros Hne Hall.
  assert (Ht : Forall (fun d => missing (temp d)) data)
    by (eapply Forall_impl; [|exact Hall]; simpl; tauto).
  assert (Hlo : Forall (fun d => missing (tempMin d)) data)
    by (eapply Forall_impl; [|exact Hall]; simpl; tauto).
  assert (Hhi : Forall (fun d => missing (tempMax d)) data)
    by (eapply Forall_impl; [|exact Hall]; simpl; tauto).
  destruct data as [|d data]; [now elim Hne|].
  unfold calculateTemperatureStats, month_of_first.
  rewrite (filter_present_nil temp _ Ht), (filter_present_nil tempMin _ Hlo),
    (filter_present_nil tempMax _ Hhi).
  change (Math_max (map ToNumber [])) with neg_infinity.
  change (Math_min (map ToNumber [])) with infinity.
  rewrite (find_none_missing tempMax _ _ Hhi),
    (find_none_missing tempMin _ _ Hlo).
  reflexivity.
Qed.

Lemma temperature_stats_all_missing_witness :
  calculateTemperatureStats (Some [monthly "Jan" Null Null Null])
  = Some {| average := 0; max := neg_infinity; min := infinity;
            range := neg_infinity;
            hottestMonth := VUndefined; coldestMonth := VUndefined |}.
Proof.
  apply (temperature_stats_all_missing [monthly "Jan" Null Null Null]).
  - discriminate.
  - repeat constructor.
Defined.

(** ** Correlation *)

(** C3, what the code does: on two constant series, whose variance is zero,
    the rounded sums do not cancel; the product under the square root comes
    out negative, its square root is [NaN], the test [denominator === 0]
    fails and the result is [NaN]. *)
Theorem correlation_constant_series_nan :
  (correlation_radicand [0.3; 0.3; 0.3] [5.2; 5.2; 5.2] <? 0) = true
  /\ calculateCorrelation [0.3; 0.3; 0.3] [5.2; 5.2; 5.2] = nan.
Proof. split; vm_compute; reflexivity. Qed.

(** C4, what the code does: on two constant series the result is [1.5],
    outside [-1, 1] and not the [0] of a zero-variance input. *)
Theorem correlation_constant_series_out_of_range :
  calculateCorrelation [0.3; 0.3; 0.3] [0.7; 0.7; 0.7] = 1.5
  /\ (1 <? calculateCorrelation [0.3; 0.3; 0.3] [0.7; 0.7; 0.7]) = true.
Proof. split; vm_compute; reflexivity. Qed.

(** Rounding alone takes the result out of the interval, on series that are
    not constant: here [y = x - 5]. *)
Lemma correlation_above_one :
  calculateCorrelation [28.2; 12.4; 24.4; 12.4] [23.2; 7.4; 19.4; 7.4]
  = 1.0000000000000002.
Proof. vm_compute. reflexivity. Qed.

Lemma sum_products_from_zip (x : list float) :
  forall (y0 y : list float) (sum : float),
    List.length x = List.length y ->
    sum_products_from (List.length y0) x (y0 ++ y) sum = zip_sum x y sum.
Proof.
  induction x as [|xi x IH]; intros y0 [|yi y] sum Hlen; simpl in *;
    try discriminate; trivial.
  rewrite nth_middle.
  replace (y0 ++ yi :: y) with ((y0 ++ [yi]) ++ y)
    by (now rewrite <- app_assoc).
  replace (S (List.length y0)) with (List.length (y0 ++ [yi]))
    by (rewrite length_app; simpl; lia).
  rewrite IH by lia. reflexivity.
Qed.

Lemma zip_sum_comm (x : list float) :
  forall (y : list float) (sum : float), zip_sum x y sum = zip_sum y x sum.
Proof.
  unfold zip_sum.
  induction x as [|xi x IH]; intros [|yi y] sum; simpl; trivial.
  rewrite (float_mul_comm xi yi). apply IH.
Qed.

Lemma length_num_eq {A B : Type} (l : list A) (l' : list B) :
  List.length l = List.length l' -> length_num l = length_num l'.
Proof. unfold length_num. now intros ->. Qed.

Lemma correlation_numerator_comm (x y : list float) :
  List.length x = List.length y ->
  correlation_numerator x y = correlation_numerator y x.
Proof.
  intros E. unfold correlation_numerator.
  change (sum_products_from 0 x y 0)
    with (sum_products_from (List.length (@nil float)) x ([] ++ y) 0).
  change (sum_products_from 0 y x 0)
    with (sum_products_from (List.length (@nil float)) y ([] ++ x) 0).
  rewrite (sum_products_from_zip x [] y 0 E).
  rewrite (sum_products_from_zip y [] x 0 (eq_sym E)).
  rewrite (zip_sum_comm x y), (length_num_eq x y E).
  now rewrite (float_mul_comm (sum_floats x)).
Qed.

Lemma correlation_radicand_comm (x y : list float) :
  List.length x = List.length y ->
  correlation_radicand x y = correlation_radicand y x.
Proof.
  intros E. unfold correlation_radicand.
  rewrite (length_num_eq x y E). apply float_mul_comm.
Qed.

(** C8: [calculateCorrelation(x, y)] and [calculateCorrelation(y, x)] are the
    same number, for arrays of equal length and, both being [0], for arrays of
    different lengths.  Equality is identity of the values: when one side is
    [NaN] so is the other. *)
Theorem calculateCorrelation_symmetric (x y : list float) :
  calculateCorrelation x y = calculateCorrelation y x.
Proof.
  unfold calculateCorrelation.
  destruct (Nat.eqb (List.length x) (List.length y)) eqn:E.
  - apply Nat.eqb_eq in E. rewrite <- E, Nat.eqb_refl. simpl.
    destruct (Nat.eqb (List.length x) 0); trivial.
    now rewrite (correlation_numerator_comm x y E),
      (correlation_radicand_comm x y E).
  - rewrite Nat.eqb_sym in E. now rewrite E.
Qed.

(** The degenerate cases the code does detect: arrays of different lengths,
    empty arrays, and a computed product under the square root that is
    [+0] or [-0]. *)
Lemma calculateCorrelation_length_mismatch (x y : list float) :
  List.length x <> List.length y -> calculateCorrelation x y = 0.
Proof.
  intros H. unfold calculateCorrelation.
  apply Nat.eqb_neq in H. now rewrite H.
Qed.

Lemma calculateCorrelation_empty (y : list float) :
  calculateCorrelation [] y = 0.
Proof.
  unfold calculateCorrelation. simpl. now rewrite orb_true_r.
Qed.

Lemma sqrt_of_zero (p : float) : (p =? 0) = true -> (sqrt p =? 0) = true.
Proof.
  intros H. rewrite eqb_spec in *. rewrite sqrt_spec.
  change (Prim2SF 0) with (S754_zero false) in *.
  destruct (Prim2SF p) as [s|s| |s m e]; simpl in *;
    try destruct s; try discriminate H; reflexivity.
Qed.

Lemma calculateCorrelation_zero_radicand (x y : list float) :
  (correlation_radicand x y =? 0) = true -> calculateCorrelation x y = 0.
Proof.
  intros H. unfold calculateCorrelation.
  rewrite (sqrt_of_zero _ H). now destruct (_ || _).
Qed.

(** ** Year comparison *)

Lemma fold_left_sum_map {A : Type} (g : A -> float) (l : list A) :
  forall sum : float,
    fold_left (fun sum val => sum + ToNumber val) (map (fun d => Num (g d)) l)
              sum
    = fold_left (fun sum d => sum + g d) l sum.
Proof.
  induction l as [|a l IH]; intros sum; simpl; trivial.
Qed.

Lemma year_average_mean_with_zero (data : list WeatherRecord)
    (metric : Metric) :
  data <> [] -> year_average data metric = mean_with_zero data metric.
Proof.
  intros Hne. destruct data as [|d data]; [now elim Hne|].
  unfold year_average, mean_with_zero, calculateAverage, sum_values.
  cbn [map].
  rewrite <- (map_cons (fun d => Num (or_zero (metric_of d metric)))).
  rewrite fold_left_sum_map.
  f_equal. apply length_num_eq. now rewrite length_map.
Qed.

Lemma or_zero_kept (v : field) : kept v -> Num (or_zero v) = v.
Proof.
  destruct v as [f| |]; simpl; try tauto. now intros ->.
Qed.

Lemma kept_present (v : field) : kept v -> present v = true.
Proof. destruct v; simpl; tauto. Qed.

(** When no value is dropped by [|| 0], the two means agree. *)
Lemma mean_with_zero_all_kept (data : list WeatherRecord) (metric : Metric) :
  Forall (fun d => kept (metric_of d metric)) data ->
  mean_with_zero data metric = mean_of_present data metric.
Proof.
  intros H. unfold mean_with_zero, mean_of_present. f_equal.
  induction H as [|d data Hd _ IH]; simpl; trivial.
  rewrite (kept_present _ Hd), (or_zero_kept _ Hd). now f_equal.
Qed.

(** A comparison is returned exactly when both years have records. *)
Lemma getYearComparison_some (records : list WeatherRecord)
    (year1 year2 : field) :
  records_of_year records year1 <> [] ->
  records_of_year records year2 <> [] ->
  exists cmp, getYearComparison (Some records) year1 year2 = Some cmp.
Proof.
  unfold getYearComparison. fold (records_of_year records year1).
  fold (records_of_year records year2). intros H1 H2.
  destruct (records_of_year records year1); [now elim H1|].
  destruct (records_of_year records year2); [now elim H2|].
  eexists. reflexivity.
Qed.

Lemma getYearComparison_none (records : list WeatherRecord)
    (year1 year2 : field) :
  records_of_year records year1 = [] \/ records_of_year records year2 = [] ->
  getYearComparison (Some records) year1 year2 = None.
Proof.
  unfold getYearComparison. fold (records_of_year records year1).
  fold (records_of_year records year2). intros [-> | ->]; trivial.
  now destruct (records_of_year records year1).
Qed.

(** The scenario of the specification: mean temperatures [10] and [12]
    give the difference [2] and the change [20] percent. *)
Example year_comparison_scenario :
  option_map (fun cmp => map snd (differences cmp))
    (getYearComparison
       (Some [ obs (Num 2020) (Num 9) (Num 0) (Num 0) (Num 0);
               obs (Num 2020) (Num 11) (Num 0) (Num 0) (Num 0);
               obs (Num 2021) (Num 12) (Num 0) (Num 0) (Num 0) ])
       (Num 2020) (Num 2021))
  = Some [ {| md_year1 := 10; md_year2 := 12; difference := 2;
              percentChange := 20 |};
           {| md_year1 := 0; md_year2 := 0; difference := 0;
              percentChange := 0 |};
           {| md_year1 := 0; md_year2 := 0; difference := 0;
              percentChange := 0 |};
           {| md_year1 := 0; md_year2 := 0; difference := 0;
              percentChange := 0 |} ].
Proof. vm_compute. reflexivity. Qed.

(** C1, as the claim states it, fails: in [two_years] the second record of
    2020 misses [temp]; [getYearComparison] reports the 2020 mean [5], the
    sum [10 + 0] over both records, where the mean over the present values
    is [10]. *)
Lemma year_comparison_counts_missing_as_zero :
  exists cmp md,
    getYearComparison (Some two_years) (Num 2020) (Num 2021) = Some cmp
    /\ In (Mtemp, md) (differences cmp)
    /\ md_year1 md = 5
    /\ mean_of_present (records_of_year two_years (Num 2020)) Mtemp = 10
    /\ md_year1 md
       <> mean_of_present (records_of_year two_years (Num 2020)) Mtemp.
Proof.
  eexists. eexists. split; [vm_compute; reflexivity|].
  split; [left; reflexivity|].
  split; [reflexivity|]. split; [vm_compute; reflexivity|].
  intros H. apply (f_equal (fun v => v =? 5)) in H. vm_compute in H.
  discriminate H.
Qed.

(** C1, amended: when [getYearComparison] returns a comparison, it has one
    entry per compared metric, in order, and the mean it reports for each
    year is taken over all the records of that year, a value that is missing
    (or [NaN], or zero) counting as [0]; it is the mean over the present
    values when no record of the year has such a value. *)
Theorem year_comparison_mean (records : list WeatherRecord)
    (year1 year2 : field) (cmp : YearComparison) :
  getYearComparison (Some records) year1 year2 = Some cmp ->
  map fst (differences cmp) = comparison_metrics
  /\ Forall
       (fun entry =>
          let data1 := records_of_year records year1 in
          let data2 := records_of_year records year2 in
          let metric := fst entry in
          md_year1 (snd entry) = mean_with_zero data1 metric
          /\ md_year2 (snd entry) = mean_with_zero data2 metric
          /\ (Forall (fun d => kept (metric_of d metric)) data1 ->
              md_year1 (snd entry) = mean_of_present data1 metric)
          /\ (Forall (fun d => kept (metric_of d metric)) data2 ->
              md_year2 (snd entry) = mean_of_present data2 metric))
       (differences cmp).
Proof.
  unfold getYearComparison. fold (records_of_year records year1).
  fold (records_of_year records year2).
  destruct (records_of_year records year1) as [|d1 data1] eqn:E1;
    [discriminate|].
  destruct (records_of_year records year2) as [|d2 data2] eqn:E2;
    [discriminate|].
  intros H. injection H as <-. split; [reflexivity|].
  assert (N1 : d1 :: data1 <> []) by discriminate.
  assert (N2 : d2 :: data2 <> []) by discriminate.
  cbn [differences comparison_metrics map].
  repeat constructor; cbn [fst snd metric_difference md_year1 md_year2];
    try (now apply year_average_mean_with_zero);
    intros K; rewrite <- (mean_with_zero_all_kept _ _ K);
    now apply year_average_mean_with_zero.
Qed.

Lemma year_comparison_mean_witness :
  exists cmp,
    getYearComparison (Some two_years) (Num 2020) (Num 2021) = Some cmp
    /\ map fst (differences cmp) = comparison_metrics.
Proof.
  eexists. split; [vm_compute; reflexivity|].
  eapply (year_comparison_mean two_years (Num 2020) (Num 2021)).
  vm_compute. reflexivity.
Defined.

(** ** Extremes and the order of the summary *)

Lemma min_step_le (lowest number : float) :
  is_nan lowest = false -> is_nan number = false ->
  is_nan (min_step lowest number) = false
  /\ (min_step lowest number <=? lowest) = true
  /\ (min_step lowest number <=? number) = true.
Proof.
  intros Hl Hn. unfold min_step.
  destruct (Leibniz.eqb number (-0) && Leibniz.eqb lowest 0) eqn:Z.
  - apply andb_true_iff in Z. destruct Z as [Z1 Z2].
    apply Leibniz.eqb_spec in Z1, Z2. subst. repeat split; reflexivity.
  - destruct (number <? lowest) eqn:L.
    + repeat split; trivial; [now apply ltb_leb | now apply leb_refl].
    + repeat split; trivial; [now apply leb_refl | now apply not_ltb_leb].
Qed.

Lemma max_step_ge (highest number : float) :
  is_nan highest = false -> is_nan number = false ->
  is_nan (max_step highest number) = false
  /\ (highest <=? max_step highest number) = true
  /\ (number <=? max_step highest number) = true.
Proof.
  intros Hh Hn. unfold max_step.
  destruct (Leibniz.eqb number 0 && Leibniz.eqb highest (-0)) eqn:Z.
  - apply andb_true_iff in Z. destruct Z as [Z1 Z2].
    apply Leibniz.eqb_spec in Z1, Z2. subst. repeat split; reflexivity.
  - destruct (highest <? number) eqn:L.
    + repeat split; trivial; [now apply ltb_leb | now apply leb_refl].
    + repeat split; trivial; [now apply leb_refl | now apply not_ltb_leb].
Qed.

Lemma fold_min_le (l : list float) :
  forall lowest : float,
    is_nan lowest = false -> existsb is_nan l = false ->
    is_nan (fold_left min_step l lowest) = false
    /\ (fold_left min_step l lowest <=? lowest) = true
    /\ forall x, In x l -> (fold_left min_step l lowest <=? x) = true.
Proof.
  induction l as [|a l IH]; intros lowest Hl Hnan; simpl in *.
  - repeat split; trivial; [now apply leb_refl | tauto].
  - apply orb_false_iff in Hnan. destruct Hnan as [Ha Hnan].
    destruct (min_step_le lowest a Hl Ha) as (N & L1 & L2).
    destruct (IH (min_step lowest a) N Hnan) as (N' & M & All).
    repeat split; trivial.
    + eapply leb_trans; eassumption.
    + intros x [<-|Hx]; [eapply leb_trans; eassumption | now apply All].
Qed.

Lemma fold_max_ge (l : list float) :
  forall highest : float,
    is_nan highest = false -> existsb is_nan l = false ->
    is_nan (fold_left max_step l highest) = false
    /\ (highest <=? fold_left max_step l highest) = true
    /\ forall x, In x l -> (x <=? fold_left max_step l highest) = true.
Proof.
  induction l as [|a l IH]; intros highest Hh Hnan; simpl in *.
  - repeat split; trivial; [now apply leb_refl | tauto].
  - apply orb_false_iff in Hnan. destruct Hnan as [Ha Hnan].
    destruct (max_step_ge highest a Hh Ha) as (N & L1 & L2).
    destruct (IH (max_step highest a) N Hnan) as (N' & M & All).
    repeat split; trivial.
    + eapply leb_trans; eassumption.
    + intros x [<-|Hx]; [eapply leb_trans; eassumption | now apply All].
Qed.

(** [Math.min] is below, and [Math.max] above, every argument when none of
    them is [NaN]. *)
Lemma Math_min_le (l : list float) (x : float) :
  existsb is_nan l = false -> In x l -> (Math_min l <=? x) = true.
Proof.
  intros Hnan Hx. unfold Math_min. rewrite Hnan.
  now apply (fold_min_le l infinity).
Qed.

Lemma Math_max_ge (l : list float) (x : float) :
  existsb is_nan l = false -> In x l -> (x <=? Math_max l) = true.
Proof.
  intros Hnan Hx. unfold Math_max. rewrite Hnan.
  now apply (fold_max_ge l neg_infinity).
Qed.



(** The scenario of the specification, on two months of the climatology. *)
Example temperature_stats_scenario :
  calculateTemperatureStats
    (Some [ monthly "Jan" (Num 3) (Num 1) (Num 6);
            monthly "Jul" (Num 20) (Num 14) (Num 25) ])
  = Some {| average := 11.5; max := 25; min := 1; range := 24;
            hottestMonth := VStr "Jul"; coldestMonth := VStr "Jan" |}.
Proof. vm_compute. reflexivity. Qed.


(** Nor does the order hold for a record whose [temp] is outside its own
    extremes, which the engine does not reject. *)
Lemma temperature_average_below_min :
  exists s,
    calculateTemperatureStats (Some inverted) = Some s
    /\ (min s <=? average s) = false.
Proof.
  eexists. split; [vm_compute; reflexivity|]. reflexivity.
Qed.



(** ** Yearly aggregates *)

(** The integer [Math.round] picks for [x = ±m·2^e], [e < 0], is the nearest
    one, a tie going up: [n - 1/2 <= x < n + 1/2]. *)
Lemma round_integer_nearest (sign : bool) (m : positive) (e : Z) :
  (e < 0)%Z ->
  let x2 := (2 * (if sign then Zneg m else Zpos m))%Z in
  let n := round_integer sign m e in
  ((2 * n - 1) * 2 ^ (- e) <= x2 < (2 * n + 1) * 2 ^ (- e))%Z.
Proof.
  intros He x2 n. unfold n, round_integer. fold x2.
  assert (Hd : (0 < 2 ^ (- e))%Z) by (apply Z.pow_pos_nonneg; lia).
  set (d := (2 ^ (- e))%Z) in *.
  pose proof (Z.div_mod (x2 + d) (2 * d) ltac:(lia)) as E.
  pose proof (Z.mod_pos_bound (x2 + d) (2 * d) ltac:(lia)) as B.
  set (q := ((x2 + d) / (2 * d))%Z) in *.
  nia.
Qed.












(** How missing values enter the rows: the 2020 records of [two_years] have
    the temperatures [10] and [null], and the row reports the mean [5]; a
    sum over an [undefined] value is [NaN]. *)
Lemma yearly_aggregates_missing_values :
  map avgTemp (calculateYearlyAggregates two_years) = [5; 12]
  /\ map totalRainfall
         (calculateYearlyAggregates
            [obs (Num 2020) (Num 10) Undefined (Num 80) (Num 5)])
     = [nan].
Proof. split; vm_compute; reflexivity. Qed.

(** ** Search by criteria *)

Section SearchProperties.

Variable StringToNumber : string -> float.

Lemma criterion_holds_satisfies (record : WeatherRecord)
    (entry : string * criterion) :
  snd entry <> CValue VNull ->
  criterion_holds StringToNumber record entry
  = Normal (satisfies StringToNumber record entry).
Proof.
  destruct entry as [key [c|vmin vmax]]; unfold satisfies; simpl; intros H.
  - destruct c; trivial. now elim H.
  - now destruct (is_undefined vmin), (is_undefined vmax).
Qed.

Lemma every_satisfies (record : WeatherRecord)
    (criteria : list (string * criterion)) :
  null_free criteria ->
  every (criterion_holds StringToNumber record) criteria
  = Normal (forallb (satisfies StringToNumber record) criteria).
Proof.
  induction 1 as [|entry criteria He _ IH]; simpl; trivial.
  rewrite (criterion_holds_satisfies record entry He).
  now destruct (satisfies StringToNumber record entry).
Qed.

Lemma filter_c_normal {A : Type} (f : A -> completion bool) (g : A -> bool)
    (l : list A) :
  (forall a, f a = Normal (g a)) -> filter_c f l = Normal (filter g l).
Proof.
  intros H. induction l as [|a l IH]; simpl; trivial.
  rewrite H, IH. now destruct (g a).
Qed.

(** When no criterion value is [null], [searchData] returns the records of
    the yearly set that satisfy every criterion, and only them. *)
Lemma searchData_null_free (records : list WeatherRecord)
    (criteria : list (string * criterion)) :
  null_free criteria ->
  searchData StringToNumber (Some records) criteria
  = Normal (filter (fun record =>
                      forallb (satisfies StringToNumber record) criteria)
                   records).
Proof.
  intros H. unfold searchData. apply filter_c_normal.
  intros record. now apply every_satisfies.
Qed.

Lemma searchData_null_free_iff (records result : list WeatherRecord)
    (criteria : list (string * criterion)) (record : WeatherRecord) :
  null_free criteria ->
  searchData StringToNumber (Some records) criteria = Normal result ->
  (In record result <->
   In record records
   /\ forall entry, In entry criteria ->
                    satisfies StringToNumber record entry = true).
Proof.
  intros H E. rewrite (searchData_null_free records criteria H) in E.
  injection E as <-. rewrite filter_In, forallb_forall. tauto.
Qed.

(** When no criterion value is [null], a range object with a bound absent
    is satisfied by no record, and the result is empty. *)
Lemma searchData_partial_range (yearly : option (list WeatherRecord))
    (criteria : list (string * criterion)) (key : string)
    (vmin vmax : value) :
  null_free criteria ->
  In (key, CObject vmin vmax) criteria ->
  is_undefined vmin || is_undefined vmax = true ->
  searchData StringToNumber yearly criteria = Normal [].
Proof.
  intros H Hin Hpartial. destruct yearly as [records|]; [|reflexivity].
  rewrite (searchData_null_free records criteria H). f_equal.
  induction records as [|record records IH]; simpl; trivial.
  assert (F : forallb (satisfies StringToNumber record) criteria = false).
  { destruct (forallb _ criteria) eqn:E; trivial.
    rewrite forallb_forall in E. specialize (E _ Hin).
    unfold satisfies in E. simpl in E. now rewrite Hpartial in E. }
  now rewrite F.
Qed.

(** The scenario of the specification: a humidity range and an exact year
    select the 2022 records whose humidity lies in [[70, 80]], bounds
    included. *)
Example searchData_scenario :
  searchData StringToNumber
    (Some [ obs (Num 2021) (Num 10) (Num 100) (Num 75) (Num 5);
            obs (Num 2022) (Num 11) (Num 90) (Num 70) (Num 6);
            obs (Num 2022) (Num 12) (Num 80) (Num 81) (Num 7);
            obs (Num 2022) (Num 13) (Num 70) (Num 80) (Num 8) ])
    [ ("humidity"%string, CObject (VNum 70) (VNum 80));
      ("year"%string, CValue (VNum 2022)) ]
  = Normal [ obs (Num 2022) (Num 11) (Num 90) (Num 70) (Num 6);
             obs (Num 2022) (Num 13) (Num 70) (Num 80) (Num 8) ].
Proof. reflexivity. Qed.

(** C7, what the code does: a criterion whose value is [null] is taken for
    an object ([typeof null] is ["object"]) and reading its [min] throws; on
    a yearly set that is not empty the search ends with a [TypeError] instead
    of the records whose field is strictly equal to [null]. *)
Theorem searchData_null_criterion_throws (record : WeatherRecord)
    (records : list WeatherRecord) (key : string)
    (rest : list (string * criterion)) :
  searchData StringToNumber (Some (record :: records))
             ((key, CValue VNull) :: rest)
  = TypeError.
Proof. reflexivity. Qed.

(** C10, what the code does: when a criterion whose value is [null] comes
    before the range object that has only its [min], the search ends with a
    [TypeError] and not with the empty result. *)
Theorem searchData_partial_range_after_null (record : WeatherRecord)
    (records : list WeatherRecord) (key key' : string) (vmin : value)
    (rest : list (string * criterion)) :
  searchData StringToNumber (Some (record :: records))
             ((key, CValue VNull) :: (key', CObject vmin VUndefined) :: rest)
  = TypeError.
Proof. reflexivity. Qed.

End SearchProperties.

(** ** Rounding in binary64: multiplication preserves the order *)

Section Rounding.

Local Open Scope Z_scope.

(** A mantissa of [d] binary digits lies in [[2^(d-1), 2^d)]. *)
Lemma digits2_pos_bounds (p : positive) :
  2 ^ (Zpos (digits2_pos p) - 1) <= Zpos p < 2 ^ Zpos (digits2_pos p).
Proof.
  induction p as [p IH|p IH|]; cbn [digits2_pos].
  - rewrite Pos2Z.inj_succ. change (Zpos p~1) with (2 * Zpos p + 1).
    replace (Z.succ (Zpos (digits2_pos p)) - 1)
      with (Z.succ (Zpos (digits2_pos p) - 1)) by lia.
    rewrite !Z.pow_succ_r by lia.
    generalize dependent (2 ^ (Zpos (digits2_pos p) - 1)).
    generalize (2 ^ Zpos (digits2_pos p)). lia.
  - rewrite Pos2Z.inj_succ. change (Zpos p~0) with (2 * Zpos p).
    replace (Z.succ (Zpos (digits2_pos p)) - 1)
      with (Z.succ (Zpos (digits2_pos p) - 1)) by lia.
    rewrite !Z.pow_succ_r by lia.
    generalize dependent (2 ^ (Zpos (digits2_pos p) - 1)).
    generalize (2 ^ Zpos (digits2_pos p)). lia.
  - simpl. lia.
Qed.

(** One more shift keeps the invariant. *)
Lemma shr_1_inv (M k : Z) (rec : shr_record) :
  0 <= k -> shr_inv M k rec -> shr_inv M (k + 1) (shr_1 rec).
Proof.
  intros Hk. unfold shr_inv.
  rewrite Z.pow_add_r, Z.pow_1_r by lia.
  assert (Hp : 0 < 2 ^ k) by (apply Z.pow_pos_nonneg; lia).
  set (p := 2 ^ k) in *. clearbody p.
  destruct rec as [m r s]. cbn [shr_m shr_r shr_s].
  intros (Hm & Hb & Hl).
  destruct m as [|[q|q|]|q]; try lia; cbn [shr_1 shr_m shr_r shr_s];
    try change (Zpos q~1) with (2 * Zpos q + 1) in *;
    try change (Zpos q~0) with (2 * Zpos q) in *;
    destruct r, s; cbn [orb]; try nia.
Qed.

(** So do [n] of them. *)
Lemma iter_pos_shr_inv (M : Z) (n : positive) :
  forall (rec : shr_record) (k : Z),
    0 <= k -> shr_inv M k rec ->
    shr_inv M (k + Zpos n) (iter_pos shr_1 n rec).
Proof.
  induction n as [n IH|n IH|]; intros rec k Hk H; cbn [iter_pos].
  - change (Zpos n~1) with (2 * Zpos n + 1).
    replace (k + (2 * Zpos n + 1)) with (k + 1 + Zpos n + Zpos n) by lia.
    apply IH; [lia|]. apply IH; [lia|]. now apply shr_1_inv.
  - change (Zpos n~0) with (2 * Zpos n).
    replace (k + 2 * Zpos n) with (k + Zpos n + Zpos n) by lia.
    apply IH; [lia|]. now apply IH.
  - now apply shr_1_inv.
Qed.

(** Rounding the shifted mantissa by its two bits is rounding to nearest,
    ties to even. *)
Lemma round_nearest_even_rne (M k : Z) (rec : shr_record) :
  0 <= k -> shr_inv M k rec ->
  let q := round_nearest_even (shr_m rec) (loc_of_shr_record rec) in
  0 <= q /\ rne M k q.
Proof.
  intros Hk. unfold shr_inv, rne.
  assert (Hp : 0 < 2 ^ k) by (apply Z.pow_pos_nonneg; lia).
  set (p := 2 ^ k) in *. clearbody p.
  destruct rec as [m r s]. cbn [shr_m shr_r shr_s loc_of_shr_record].
  intros (Hm & Hb & Hl).
  destruct r, s; cbn [round_nearest_even].
  - repeat split; try nia.
  - destruct (Z.even m) eqn:Ev.
    + repeat split; try nia. intros _. exact Ev.
    + repeat split; try nia. intros _.
      rewrite Z.add_1_r, Z.even_succ, <- Z.negb_even, Ev. reflexivity.
  - repeat split; try nia.
  - repeat split; try nia.
Qed.

(** [shr_fexp] shifts the mantissa down to the exponent the format
    prescribes, when that is above the given one. *)
Lemma shr_fexp_inv (mx : positive) (E : Z) (rec : shr_record) (e' : Z) :
  shr_fexp prec emax (Zpos mx) E loc_Exact = (rec, e') ->
  e' = Z.max E (fexp prec emax (Zpos (digits2_pos mx) + E))
  /\ shr_inv (Zpos mx) (e' - E) rec.
Proof.
  unfold shr_fexp, shr. cbn [Zdigits2 shr_record_of_loc].
  set (f := fexp prec emax (Zpos (digits2_pos mx) + E)).
  assert (I0 : shr_inv (Zpos mx) 0
                 {| shr_m := Zpos mx; shr_r := false; shr_s := false |}).
  { unfold shr_inv. cbn [shr_m shr_r shr_s]. rewrite Z.pow_0_r. lia. }
  destruct (f - E) as [|n|n] eqn:D; intros H; injection H as <- <-.
  - split; [lia|]. now replace (E - E) with 0 by lia.
  - split; [lia|]. replace (E + Zpos n - E) with (0 + Zpos n) by lia.
    apply iter_pos_shr_inv; [lia|exact I0].
  - split; [lia|]. now replace (E - E) with 0 by lia.
Qed.

(** The exponent binary64 prescribes for a value of magnitude [x]. *)
Lemma fexp_eq (x : Z) : fexp prec emax x = Z.max (x - 53) (-1074).
Proof. reflexivity. Qed.

Lemma pow2_lt_inv (a b : Z) : 0 <= a -> 0 <= b -> 2 ^ a < 2 ^ b -> a < b.
Proof. intros Ha Hb H. apply (Z.pow_lt_mono_r_iff 2); lia. Qed.

(** The second [shr_fexp] of [binary_round_aux]: at most one more shift,
    when rounding carried the mantissa to [2^prec]. *)
Lemma renormalize (sx : bool) (q e : Z) :
  0 <= q <= 2 ^ prec -> -1074 <= e ->
  (let '(mrs, e'') := shr_fexp prec emax q e loc_Exact in
   match shr_m mrs with
   | Z0 => S754_zero sx
   | Zpos m =>
       if e'' <=? emax - prec then S754_finite sx m e''
       else S754_infinity sx
   | Zneg _ => S754_nan
   end) = norm sx q e.
Proof.
  intros Hq He. unfold shr_fexp, shr. cbn [shr_record_of_loc].
  destruct q as [|m|m]; [| |lia].
  - cbn [Zdigits2]. rewrite fexp_eq.
    destruct (Z.max (0 + e - 53) (-1074) - e) eqn:D; try lia; reflexivity.
  - cbn [Zdigits2 norm]. rewrite fexp_eq.
    pose proof (digits2_pos_bounds m) as B.
    set (d := Zpos (digits2_pos m)) in *.
    assert (Hd : 1 <= d) by (unfold d; lia).
    change (2 ^ prec) with (2 ^ 53) in *.
    destruct (Zpos m <? 2 ^ 53) eqn:L.
    + apply Z.ltb_lt in L.
      assert (d - 1 < 53) by (apply pow2_lt_inv; lia).
      destruct (Z.max (d + e - 53) (-1074) - e) eqn:D; try lia; reflexivity.
    + apply Z.ltb_ge in L. assert (Q : Zpos m = 2 ^ 53) by lia.
      assert (53 < d) by (apply pow2_lt_inv; lia).
      assert (d - 1 < 54) by (apply pow2_lt_inv; lia).
      assert (D : Z.max (d + e - 53) (-1074) - e = 1) by lia.
      rewrite D. cbn [iter_pos].
      destruct m as [m|m|]; try (exfalso; vm_compute in Q; lia).
      reflexivity.
Qed.

(** [binary_round_aux] on an exact mantissa that has digits to spare: the
    mantissa is rounded to nearest even at the prescribed exponent, then
    normalised. *)
Lemma binary_round_aux_norm (sx : bool) (mx : positive) (E : Z) :
  let f := fexp prec emax (Zpos (digits2_pos mx) + E) in
  E <= f ->
  exists q,
    0 <= q <= 2 ^ prec
    /\ rne (Zpos mx) (f - E) q
    /\ binary_round_aux prec emax sx (Zpos mx) E loc_Exact = norm sx q f.
Proof.
  intros f Hf. unfold binary_round_aux.
  destruct (shr_fexp prec emax (Zpos mx) E loc_Exact) as [rec e'] eqn:S.
  apply shr_fexp_inv in S. fold f in S. destruct S as (-> & Inv).
  assert (Hmax : Z.max E f = f) by lia. rewrite Hmax in *. clear Hmax.
  assert (Hk0 : 0 <= f - E) by lia.
  destruct (round_nearest_even_rne _ _ _ Hk0 Inv) as (Hq & R).
  set (q := round_nearest_even (shr_m rec) (loc_of_shr_record rec)) in *.
  assert (Hq' : q <= 2 ^ prec).
  { pose proof (digits2_pos_bounds mx) as B.
    set (d := Zpos (digits2_pos mx)) in *.
    assert (Hk : d <= f - E + 53) by (unfold f; rewrite fexp_eq; lia).
    assert (P : 2 ^ d <= 2 ^ (f - E) * 2 ^ 53).
    { rewrite <- Z.pow_add_r by lia. apply Z.pow_le_mono_r; lia. }
    destruct R as ((R1 & _) & _).
    assert (Hp : 0 < 2 ^ (f - E)) by (apply Z.pow_pos_nonneg; lia).
    change (2 ^ prec) with (2 ^ 53).
    set (p := 2 ^ (f - E)) in *. clearbody p.
    set (c := 2 ^ 53) in *. assert (0 < c) by (unfold c; lia). clearbody c.
    nia. }
  exists q. split; [lia|]. split; [exact R|].
  apply renormalize; [lia|]. unfold f. rewrite fexp_eq. lia.
Qed.

Lemma key_norm (q f : Z) :
  0 <= q <= 2 ^ 53 -> key (norm false q f) = nkey q f.
Proof.
  intros Hq. unfold norm, nkey. change (2 ^ prec) with (2 ^ 53).
  change (emax - prec) with 971.
  destruct q as [|m|m]; [reflexivity| |lia].
  change (Zpos m =? 0) with false. cbn iota.
  destruct (Zpos m <? 2 ^ 53) eqn:L.
  - now destruct (f <=? 971).
  - apply Z.ltb_ge in L. assert (Q : Zpos m = 2 ^ 53) by lia.
    destruct (f + 1 <=? 971); trivial. cbn [key].
    destruct m as [m|m|]; try (exfalso; vm_compute in Q; lia).
    cbn [Pos.div2]. change (Zpos m~0) with (2 * Zpos m) in Q.
    change (2 ^ 53) with (2 * 2 ^ 52) in Q. repeat f_equal. lia.
Qed.

(** Rounding to nearest even is monotone; [M1] is shifted by [d] more
    places than [M2]. *)
Lemma rne_mono (M1 M2 k d q1 q2 : Z) :
  0 <= k -> 0 <= d ->
  M1 <= M2 * 2 ^ d ->
  rne M1 (k + d) q1 -> rne M2 k q2 -> q1 <= q2.
Proof.
  intros Hk Hd HM. unfold rne. rewrite Z.pow_add_r by lia.
  assert (HP : 0 < 2 ^ k) by (apply Z.pow_pos_nonneg; lia).
  assert (HD : 0 < 2 ^ d) by (apply Z.pow_pos_nonneg; lia).
  set (P := 2 ^ k) in *. set (D := 2 ^ d) in *. clearbody P D.
  intros ((L1 & U1) & T1 & B1) ((L2 & U2) & T2 & B2).
  destruct (Z.le_gt_cases q1 q2) as [|G]; trivial. exfalso.
  assert (X : 0 < P * D) by nia.
  assert (C : (2 * q1 - 1) * (P * D) <= (2 * q2 + 1) * (P * D)) by nia.
  assert (C' : 2 * q1 - 1 <= 2 * q2 + 1) by nia.
  assert (q1 = q2 + 1) by lia. subst q1.
  assert (E1 : 2 * M1 = (2 * (q2 + 1) - 1) * (P * D)) by nia.
  assert (E2 : 2 * M2 = (2 * q2 + 1) * P) by nia.
  specialize (B1 E1). specialize (T2 E2).
  rewrite Z.add_1_r, Z.even_succ, <- Z.negb_even, T2 in B1. discriminate.
Qed.

Lemma nkey_mono_q (q1 q2 f : Z) :
  0 <= q1 <= q2 -> q2 <= 2 ^ 53 -> key_le (nkey q1 f) (nkey q2 f).
Proof.
  intros H1 H2. unfold nkey, key_le.
  change (2 ^ 53) with 9007199254740992 in *.
  change (2 ^ 52) with 4503599627370496 in *.
  destruct (q1 =? 0) eqn:Z1, (q2 =? 0) eqn:Z2,
    (q1 <? 9007199254740992) eqn:L1, (q2 <? 9007199254740992) eqn:L2,
    (f <=? 971) eqn:F, (f + 1 <=? 971) eqn:F';
    lia.
Qed.

Lemma nkey_mono_f (q1 q2 f1 f2 : Z) :
  0 <= q1 <= 2 ^ 53 -> 2 ^ 52 <= q2 <= 2 ^ 53 -> f1 < f2 ->
  key_le (nkey q1 f1) (nkey q2 f2).
Proof.
  intros H1 H2 Hf. unfold nkey, key_le.
  change (2 ^ 53) with 9007199254740992 in *.
  change (2 ^ 52) with 4503599627370496 in *.
  destruct (q1 =? 0) eqn:Z1, (q2 =? 0) eqn:Z2,
    (q1 <? 9007199254740992) eqn:L1, (q2 <? 9007199254740992) eqn:L2,
    (f1 <=? 971) eqn:F1, (f1 + 1 <=? 971) eqn:F1',
    (f2 <=? 971) eqn:F2, (f2 + 1 <=? 971) eqn:F2';
    lia.
Qed.

(** The rounded value grows with the rounded quantity [M·2^E]. *)
Lemma round_key_mono (M1 M2 E1 E2 d1 d2 q1 q2 : Z) :
  2 ^ (d1 - 1) <= M1 < 2 ^ d1 -> 2 ^ (d2 - 1) <= M2 < 2 ^ d2 ->
  1 <= d1 -> 1 <= d2 ->
  E1 <= E2 -> M1 <= M2 * 2 ^ (E2 - E1) ->
  let f1 := Z.max (d1 + E1 - 53) (-1074) in
  let f2 := Z.max (d2 + E2 - 53) (-1074) in
  E1 <= f1 -> E2 <= f2 ->
  0 <= q1 <= 2 ^ 53 -> 0 <= q2 <= 2 ^ 53 ->
  rne M1 (f1 - E1) q1 -> rne M2 (f2 - E2) q2 ->
  key_le (nkey q1 f1) (nkey q2 f2).
Proof.
  intros B1 B2 Hd1 Hd2 HE HM f1 f2 Hf1 Hf2 Hq1 Hq2 R1 R2.
  assert (F1 : f1 = Z.max (d1 + E1 - 53) (-1074)) by reflexivity.
  assert (F2 : f2 = Z.max (d2 + E2 - 53) (-1074)) by reflexivity.
  clearbody f1 f2.
  assert (Hmag : d1 + E1 <= d2 + E2).
  { assert (P : 2 ^ (d1 - 1) < 2 ^ (d2 + (E2 - E1))).
    { rewrite Z.pow_add_r by lia.
      assert (0 < 2 ^ (E2 - E1)) by (apply Z.pow_pos_nonneg; lia). nia. }
    apply pow2_lt_inv in P; lia. }
  assert (Hf : f1 <= f2) by lia.
  destruct (Z.eq_dec f1 f2) as [Ef|Nf].
  - rewrite Ef in *. apply nkey_mono_q; [|lia]. split; [lia|].
    apply (rne_mono M1 M2 (f2 - E2) (E2 - E1)); trivial; try lia.
    now replace (f2 - E2 + (E2 - E1)) with (f2 - E1) by lia.
  - apply nkey_mono_f; try lia. split; [|lia].
    assert (K : f2 - E2 = d2 - 53) by lia.
    unfold rne in R2. rewrite K in R2. destruct R2 as ((_ & U2) & _).
    assert (P : 2 ^ d2 = 2 ^ (d2 - 53) * 2 ^ 53).
    { rewrite <- Z.pow_add_r by lia. f_equal. lia. }
    assert (0 < 2 ^ (d2 - 53)) by (apply Z.pow_pos_nonneg; lia).
    assert (S : 2 ^ d2 = 2 * 2 ^ (d2 - 1)).
    { rewrite <- Z.pow_succ_r by lia. f_equal. lia. }
    change (2 ^ 52) with 4503599627370496.
    change (2 ^ 53) with 9007199254740992 in *.
    set (p := 2 ^ (d2 - 53)) in *. clearbody p. nia.
Qed.

(** What [valid_binary] says of a finite value. *)
Lemma valid_finite (s : bool) (m : positive) (e : Z) :
  valid_binary (S754_finite s m e) = true ->
  e = Z.max (Zpos (digits2_pos m) + e - 53) (-1074) /\ e <= 971.
Proof.
  cbn [SpecFloat.valid_binary]. unfold bounded, canonical_mantissa.
  rewrite andb_true_iff, Z.eqb_eq, Z.leb_le, fexp_eq.
  change (emax - prec) with 971. lia.
Qed.

(** The product of two mantissas has at least the digits of both but
    one. *)
Lemma product_digits (m ms : positive) :
  Zpos (digits2_pos m) + Zpos (digits2_pos ms) - 1
  <= Zpos (digits2_pos (m * ms)).
Proof.
  pose proof (digits2_pos_bounds m) as B.
  pose proof (digits2_pos_bounds ms) as Bs.
  pose proof (digits2_pos_bounds (m * ms)) as Bp.
  set (d := Zpos (digits2_pos m)) in *.
  set (ds := Zpos (digits2_pos ms)) in *.
  set (dp := Zpos (digits2_pos (m * ms))) in *.
  assert (1 <= d) by (unfold d; lia). assert (1 <= ds) by (unfold ds; lia).
  assert (1 <= dp) by (unfold dp; lia).
  rewrite Pos2Z.inj_mul in Bp.
  assert (P : 2 ^ (d - 1 + (ds - 1)) < 2 ^ dp).
  { rewrite Z.pow_add_r by lia.
    assert (0 < 2 ^ (d - 1)) by (apply Z.pow_pos_nonneg; lia).
    assert (0 < 2 ^ (ds - 1)) by (apply Z.pow_pos_nonneg; lia).
    nia. }
  apply pow2_lt_inv in P; lia.
Qed.

(** So the product of two values of the format has digits to spare. *)
Lemma product_precondition (m ms : positive) (e es : Z) :
  canonical m e -> canonical ms es ->
  e + es <= Z.max (Zpos (digits2_pos (m * ms)) + (e + es) - 53) (-1074).
Proof.
  unfold canonical. intros C Cs.
  pose proof (product_digits m ms).
  assert (1 <= Zpos (digits2_pos m)) by lia.
  assert (1 <= Zpos (digits2_pos ms)) by lia.
  lia.
Qed.

(** For values of the format, the order of the keys is the order of the
    quantities [m·2^e]. *)
Lemma canonical_order (m1 m2 : positive) (e1 e2 : Z) :
  canonical m1 e1 -> canonical m2 e2 ->
  e1 < e2 \/ (e1 = e2 /\ Zpos m1 <= Zpos m2) ->
  e1 <= e2 /\ Zpos m1 <= Zpos m2 * 2 ^ (e2 - e1).
Proof.
  unfold canonical. intros C1 C2 [L|[-> L]].
  - split; [lia|].
    pose proof (digits2_pos_bounds m1) as B1.
    pose proof (digits2_pos_bounds m2) as B2.
    set (d1 := Zpos (digits2_pos m1)) in *.
    set (d2 := Zpos (digits2_pos m2)) in *.
    assert (1 <= d1) by (unfold d1; lia).
    assert (D2 : d2 = 53) by lia. rewrite D2 in B2.
    assert (P1 : 2 ^ d1 <= 2 ^ 53) by (apply Z.pow_le_mono_r; lia).
    assert (P2 : 2 ^ 1 <= 2 ^ (e2 - e1)) by (apply Z.pow_le_mono_r; lia).
    change (2 ^ (53 - 1)) with 4503599627370496 in B2.
    change (2 ^ 53) with 9007199254740992 in P1. change (2 ^ 1) with 2 in P2.
    nia.
  - split; [lia|]. rewrite Z.sub_diag, Z.pow_0_r. lia.
Qed.

(** [binary_round_aux] gives the sign it is given. *)
Lemma binary_round_aux_sign (sx : bool) (mx ex : Z) (lx : location) :
  match binary_round_aux prec emax sx mx ex lx with
  | S754_zero s | S754_infinity s | S754_finite s _ _ => s = sx
  | S754_nan => True
  end.
Proof.
  unfold binary_round_aux.
  destruct (shr_fexp prec emax mx ex lx) as [mrs' e'].
  destruct (shr_fexp prec emax _ e' loc_Exact) as [mrs'' e''].
  destruct (shr_m mrs''); trivial. now destruct (e'' <=? emax - prec).
Qed.

Lemma key_norm_neg (q f : Z) :
  0 <= q <= 2 ^ 53 -> key (norm true q f) = kneg (nkey q f).
Proof.
  intros Hq. rewrite <- (key_norm q f Hq). unfold norm.
  destruct q as [|m|m]; [reflexivity| |lia].
  destruct (Zpos m <? 2 ^ prec).
  - now destruct (f <=? emax - prec).
  - now destruct (f + 1 <=? emax - prec).
Qed.

Lemma nkey_nonneg (q f : Z) : key_le (0, 0, 0) (nkey q f).
Proof.
  unfold nkey, key_le.
  destruct (q =? 0), (q <? 2 ^ 53), (f <=? 971), (f + 1 <=? 971); lia.
Qed.

(** The product of a finite value by a positive finite one, as a key. *)
Lemma SFmul_finite_key (sx : bool) (m ms : positive) (e es : Z) :
  canonical m e -> canonical ms es ->
  exists q,
    0 <= q <= 2 ^ 53
    /\ rne (Zpos (m * ms))
           (Z.max (Zpos (digits2_pos (m * ms)) + (e + es) - 53) (-1074)
            - (e + es)) q
    /\ SFmul prec emax (S754_finite sx m e) (S754_finite false ms es)
       = norm sx q
              (Z.max (Zpos (digits2_pos (m * ms)) + (e + es) - 53) (-1074)).
Proof.
  intros C Cs. cbn [SFmul]. rewrite xorb_false_r.
  pose proof (product_precondition m ms e es C Cs) as Pre.
  destruct (binary_round_aux_norm sx (m * ms) (e + es)) as (q & Hq & R & N).
  - rewrite fexp_eq. exact Pre.
  - rewrite fexp_eq in *. change (2 ^ prec) with (2 ^ 53) in Hq.
    exists q. split; [exact Hq|]. split; [exact R|exact N].
Qed.

Lemma norm_not_nan (sx : bool) (q f : Z) : 0 <= q -> not_nan (norm sx q f).
Proof.
  intros Hq. unfold norm, not_nan. destruct q as [|m|m]; [discriminate| |lia].
  destruct (Zpos m <? 2 ^ prec); [destruct (f <=? emax - prec)
                                 |destruct (f + 1 <=? emax - prec)];
    discriminate.
Qed.

(** The key of the product of any value by a positive finite one. *)
Lemma SFmul_key (x : spec_float) (ms : positive) (es : Z) :
  valid_binary x = true -> not_nan x -> canonical ms es ->
  let p := SFmul prec emax x (S754_finite false ms es) in
  not_nan p
  /\ match x with
     | S754_finite sx m e =>
         exists q,
           0 <= q <= 2 ^ 53
           /\ rne (Zpos (m * ms)) (product_exponent m ms e es - (e + es)) q
           /\ key p = (if sx then kneg (nkey q (product_exponent m ms e es))
                       else nkey q (product_exponent m ms e es))
     | S754_zero _ => key p = (0, 0, 0)
     | S754_infinity _ => key p = key x
     | S754_nan => False
     end.
Proof.
  intros V N Cs p. unfold p. clear p.
  destruct x as [sx|sx| |sx m e].
  - split; [discriminate|reflexivity].
  - split; [discriminate|]. cbn [SFmul]. now rewrite xorb_false_r.
  - now elim N.
  - apply valid_finite in V. destruct V as (C & _).
    destruct (SFmul_finite_key sx m ms e es C Cs) as (q & Hq & R & E).
    rewrite E. split; [apply norm_not_nan; lia|].
    exists q. split; [exact Hq|]. split; [exact R|].
    destruct sx; [now apply key_norm_neg | now apply key_norm].
Qed.

Lemma key_range (x : spec_float) :
  key_le (-2, 0, 0) (key x) /\ key_le (key x) (2, 0, 0).
Proof.
  unfold key_le. destruct x as [[|]|[|]| |[|] m e]; cbn [key]; lia.
Qed.

Lemma finite_round_mono (m1 m2 ms : positive) (e1 e2 es q1 q2 : Z) :
  canonical m1 e1 -> canonical m2 e2 -> canonical ms es ->
  e1 < e2 \/ (e1 = e2 /\ Zpos m1 <= Zpos m2) ->
  0 <= q1 <= 2 ^ 53 -> 0 <= q2 <= 2 ^ 53 ->
  rne (Zpos (m1 * ms)) (product_exponent m1 ms e1 es - (e1 + es)) q1 ->
  rne (Zpos (m2 * ms)) (product_exponent m2 ms e2 es - (e2 + es)) q2 ->
  key_le (nkey q1 (product_exponent m1 ms e1 es))
         (nkey q2 (product_exponent m2 ms e2 es)).
Proof.
  intros C1 C2 Cs O Hq1 Hq2 R1 R2.
  destruct (canonical_order m1 m2 e1 e2 C1 C2 O) as (HE & HM).
  unfold product_exponent in *.
  apply (round_key_mono (Zpos (m1 * ms)) (Zpos (m2 * ms))
                        (e1 + es) (e2 + es)); trivial; try lia.
  - apply digits2_pos_bounds.
  - apply digits2_pos_bounds.
  - replace (e2 + es - (e1 + es)) with (e2 - e1) by lia.
    rewrite !Pos2Z.inj_mul.
    assert (0 < 2 ^ (e2 - e1)) by (apply Z.pow_pos_nonneg; lia). nia.
  - now apply product_precondition.
  - now apply product_precondition.
Qed.

Lemma kneg_le (a b : Z * Z * Z) : key_le a b -> key_le (kneg b) (kneg a).
Proof.
  unfold key_le, kneg. destruct a as [[a1 a2] a3], b as [[b1 b2] b3]. lia.
Qed.

Lemma key_le_trans (a b c : Z * Z * Z) :
  key_le a b -> key_le b c -> key_le a c.
Proof.
  unfold key_le.
  destruct a as [[a1 a2] a3], b as [[b1 b2] b3], c as [[c1 c2] c3]. lia.
Qed.

Lemma kneg_nonpos (q f : Z) : key_le (kneg (nkey q f)) (0, 0, 0).
Proof. apply (kneg_le (0, 0, 0)), nkey_nonneg. Qed.

(** Multiplication by a positive finite value preserves the order. *)
Lemma SFmul_pos_mono (x1 x2 : spec_float) (ms : positive) (es : Z) :
  valid_binary x1 = true -> valid_binary x2 = true -> canonical ms es ->
  not_nan x1 -> not_nan x2 ->
  key_le (key x1) (key x2) ->
  let p1 := SFmul prec emax x1 (S754_finite false ms es) in
  let p2 := SFmul prec emax x2 (S754_finite false ms es) in
  not_nan p1 /\ not_nan p2 /\ key_le (key p1) (key p2).
Proof.
  intros V1 V2 Cs N1 N2 O p1 p2.
  destruct (SFmul_key x1 ms es V1 N1 Cs) as (P1 & K1).
  destruct (SFmul_key x2 ms es V2 N2 Cs) as (P2 & K2).
  fold p1 in P1, K1. fold p2 in P2, K2.
  split; [exact P1|]. split; [exact P2|].
  destruct (key_range p1) as (Lo1 & Hi1), (key_range p2) as (Lo2 & Hi2).
  destruct x1 as [s1|s1| |s1 m1 e1]; [| |now elim N1|];
    destruct x2 as [s2|s2| |s2 m2 e2]; try (now elim N2);
    try destruct K1 as (q1 & Hq1 & R1 & K1);
    try destruct K2 as (q2 & Hq2 & R2 & K2);
    rewrite ?K1, ?K2 in *.
  - unfold key_le; lia.
  - destruct s2; cbn [key] in *; unfold key_le in *; lia.
  - destruct s2; cbn [key] in O; try (unfold key_le in O; lia).
    apply nkey_nonneg.
  - destruct s1; cbn [key] in *; unfold key_le in *; lia.
  - destruct s1, s2; cbn [key] in *; unfold key_le in *; lia.
  - destruct s1; cbn [key] in *; [exact Lo2|].
    destruct s2; cbn [key] in O; unfold key_le in O; lia.
  - destruct s1; cbn [key] in O; try (unfold key_le in O; lia).
    apply kneg_nonpos.
  - destruct s2; cbn [key] in *; [|exact Hi1].
    destruct s1; cbn [key] in O; unfold key_le in O; lia.
  - apply valid_finite in V1, V2. destruct V1 as (C1 & _), V2 as (C2 & _).
    destruct s1, s2; cbn [key] in O.
    + apply kneg_le.
      apply (finite_round_mono m2 m1 ms e2 e1 es); trivial.
      unfold key_le in O. lia.
    + eapply key_le_trans; [apply kneg_nonpos|apply nkey_nonneg].
    + unfold key_le in O. lia.
    + apply (finite_round_mono m1 m2 ms e1 e2 es); trivial.
      unfold key_le in O. lia.
Qed.

(** A square root is never negative. *)
Lemma sqrt_shape (v : float) : deviation_shape (Prim2SF (sqrt v)).
Proof.
  rewrite sqrt_spec. unfold SF64sqrt, SFsqrt.
  destruct (Prim2SF v) as [s|[|]| |[|] m e]; cbn; trivial.
  destruct (SFsqrt_core_binary prec emax (Zpos m) e) as [[mz ez] lz].
  pose proof (binary_round_aux_sign false mz ez lz) as S.
  destruct (binary_round_aux prec emax false mz ez lz); subst; cbn; trivial.
Qed.

(** Multiplying two ordered thresholds by a standard deviation keeps every
    bound that the larger product satisfied, unless the smaller threshold is
    [-Infinity]. *)
Lemma SFmul_deviation_mono (x1 x2 sd a : spec_float) :
  valid_binary x1 = true -> valid_binary x2 = true ->
  valid_binary sd = true -> deviation_shape sd ->
  not_nan x1 -> not_nan x2 -> key_le (key x1) (key x2) ->
  key_lt (-2, 0, 0) (key x1) ->
  not_nan (SFmul prec emax x2 sd) ->
  key_lt (key (SFmul prec emax x2 sd)) (key a) ->
  not_nan (SFmul prec emax x1 sd)
  /\ key_lt (key (SFmul prec emax x1 sd)) (key a).
Proof.
  intros V1 V2 Vs Sh N1 N2 O Lo P2 L.
  destruct (key_range a) as (_ & Ha).
  destruct sd as [b|[|]| |[|] ms es]; try (now elim Sh).
  - (* a zero *)
    destruct x1 as [[|]|[|]| |[|] m1 e1], x2 as [[|]|[|]| |[|] m2 e2];
      cbn [SFmul key xorb] in *; unfold not_nan, key_le, key_lt in *;
      try (exfalso; congruence); try (exfalso; lia);
      (split; [discriminate|exact L]).
  - (* +Infinity *)
    destruct x1 as [[|]|[|]| |[|] m1 e1], x2 as [[|]|[|]| |[|] m2 e2];
      cbn [SFmul key xorb] in *; unfold not_nan, key_le, key_lt in *;
      try (exfalso; congruence); try (exfalso; lia);
      destruct (key a) as [[a1 a2] a3];
      try (exfalso; lia);
      (split; [discriminate|lia]).
  - (* NaN *)
    exfalso. apply P2. now destruct x2.
  - (* positive and finite *)
    apply valid_finite in Vs. destruct Vs as (Cs & _).
    destruct (SFmul_pos_mono x1 x2 ms es V1 V2 Cs N1 N2 O) as (Q1 & _ & M).
    split; [exact Q1|].
    unfold key_le, key_lt in *.
    destruct (key (SFmul prec emax x1 (S754_finite false ms es))) as [[? ?] ?],
      (key (SFmul prec emax x2 (S754_finite false ms es))) as [[? ?] ?],
      (key a) as [[? ?] ?].
    lia.
Qed.

End Rounding.

(** Raising the threshold can only raise, or spoil, the bound that a
    deviation has to exceed. *)
Lemma threshold_bound_mono (t1 t2 v a : float) :
  (t1 <=? t2) = true -> (neg_infinity <? t1) = true ->
  (t2 * sqrt v <? a) = true -> (t1 * sqrt v <? a) = true.
Proof.
  intros O Lo L.
  apply leb_iff in O. destruct O as (N1 & N2 & O).
  apply ltb_iff in Lo. destruct Lo as (_ & _ & Lo).
  apply ltb_iff in L. destruct L as (P2 & Na & L).
  apply ltb_iff. unfold number, fkey in *. rewrite mul_spec in *.
  change (key (Prim2SF neg_infinity)) with (-2, 0, 0)%Z in Lo.
  destruct (SFmul_deviation_mono (Prim2SF t1) (Prim2SF t2)
              (Prim2SF (sqrt v)) (Prim2SF a)) as (Q1 & L1);
    trivial; try apply Prim2SF_valid. apply sqrt_shape.
  now repeat split.
Qed.

(** ** Anomaly detection *)

Lemma filter_length_le {A : Type} (p q : A -> bool) (l : list A) :
  (forall x, p x = true -> q x = true) ->
  (List.length (filter p l) <= List.length (filter q l))%nat.
Proof.
  intros H. induction l as [|a l IH]; simpl; trivial.
  destruct (p a) eqn:P.
  - rewrite (H a P). simpl. lia.
  - destruct (q a); simpl; lia.
Qed.

(** C9, as the claim states it, fails at the threshold [-Infinity]: in
    [one_missing] the standard deviation of [temp] is [0], so the bound
    [-Infinity * 0] is [NaN] and no record exceeds it, while with the larger
    threshold [1] the bound is [0] and the record that misses [temp], whose
    value counts as [0] and deviates by [5], is returned. *)
Lemma detectAnomalies_not_monotone_from_neg_infinity :
  (neg_infinity <=? 1) = true
  /\ detectAnomalies square_pow one_missing Mtemp 1
     = [obs (Num 2020) Null (Num 110) (Num 82) (Num 6)]
  /\ detectAnomalies square_pow one_missing Mtemp neg_infinity = []
  /\ ~ incl (detectAnomalies square_pow one_missing Mtemp 1)
            (detectAnomalies square_pow one_missing Mtemp neg_infinity).
Proof.
  assert (E1 : detectAnomalies square_pow one_missing Mtemp 1
               = [obs (Num 2020) Null (Num 110) (Num 82) (Num 6)])
    by (vm_compute; reflexivity).
  assert (E2 : detectAnomalies square_pow one_missing Mtemp neg_infinity = [])
    by (vm_compute; reflexivity).
  repeat split; trivial.
  rewrite E1, E2. intros H. apply (H _ (or_introl eq_refl)).
Qed.

(** C9, amended: for every record list, metric and thresholds [t1 <= t2]
    with [t1] above [-Infinity], every record [detectAnomalies] returns with
    the threshold [t2] it returns with [t1] too, and the result with [t2] is
    not longer than the result with [t1]; this for any [Math.pow]. *)
Theorem detectAnomalies_monotone (Math_pow : float -> float -> float)
    (data : list WeatherRecord) (metric : Metric) (t1 t2 : float) :
  (t1 <=? t2) = true ->
  (neg_infinity <? t1) = true ->
  incl (detectAnomalies Math_pow data metric t2)
       (detectAnomalies Math_pow data metric t1)
  /\ (List.length (detectAnomalies Math_pow data metric t2)
      <= List.length (detectAnomalies Math_pow data metric t1))%nat.
Proof.
  intros O Lo. unfold detectAnomalies, anomaly_stdDev.
  set (mean := anomaly_mean data metric).
  set (variance := calculateAverage _).
  assert (P : forall d,
             (t2 * sqrt variance <? abs (ToNumber (metric_of d metric) - mean))
             = true ->
             (t1 * sqrt variance <? abs (ToNumber (metric_of d metric) - mean))
             = true).
  { intros d. now apply threshold_bound_mono. }
  split.
  - intros d Hd. apply filter_In in Hd. apply filter_In.
    split; [tauto|]. apply P. tauto.
  - now apply filter_length_le.
Qed.

Lemma detectAnomalies_monotone_witness :
  incl (detectAnomalies square_pow one_missing Mtemp 2)
       (detectAnomalies square_pow one_missing Mtemp 1)
  /\ (List.length (detectAnomalies square_pow one_missing Mtemp 2)
      <= List.length (detectAnomalies square_pow one_missing Mtemp 1))%nat.
Proof.
  apply (detectAnomalies_monotone square_pow one_missing Mtemp 1 2);
    reflexivity.
Defined.

(** * More of the code: properties *)

(** ** Extremes are attained *)

Lemma max_step_choice (highest number : float) :
  max_step highest number = highest \/ max_step highest number = number.
Proof.
  unfold max_step.
  destruct (Leibniz.eqb number 0 && Leibniz.eqb highest (-0)); [now right|].
  destruct (highest <? number); tauto.
Qed.

Lemma min_step_choice (lowest number : float) :
  min_step lowest number = lowest \/ min_step lowest number = number.
Proof.
  unfold min_step.
  destruct (Leibniz.eqb number (-0) && Leibniz.eqb lowest 0); [now right|].
  destruct (number <? lowest); tauto.
Qed.

Lemma fold_max_choice (l : list float) :
  forall highest : float,
    fold_left max_step l highest = highest
    \/ In (fold_left max_step l highest) l.
Proof.
  induction l as [|a l IH]; intros highest; simpl; [now left|].
  destruct (IH (max_step highest a)) as [E|I]; [|tauto].
  rewrite E. destruct (max_step_choice highest a) as [-> | ->]; tauto.
Qed.

Lemma fold_min_choice (l : list float) :
  forall lowest : float,
    fold_left min_step l lowest = lowest
    \/ In (fold_left min_step l lowest) l.
Proof.
  induction l as [|a l IH]; intros lowest; simpl; [now left|].
  destruct (IH (min_step lowest a)) as [E|I]; [|tauto].
  rewrite E. destruct (min_step_choice lowest a) as [-> | ->]; tauto.
Qed.

Lemma leb_antisym (x y : float) :
  (x <=? y) = true -> (y <=? x) = true -> (x =? y) = true.
Proof. intros H1 H2. by_keys. Qed.

Lemma eqb_refl (x : float) : is_nan x = false -> (x =? x) = true.
Proof. intros H. by_keys. Qed.

(** [Math.max] of arguments that are not [NaN] is one of them, up to [===]. *)
Lemma Math_max_attained (l : list float) :
  l <> [] -> existsb is_nan l = false ->
  exists x, In x l /\ (x =? Math_max l) = true.
Proof.
  intros Hne Hnan. unfold Math_max. rewrite Hnan.
  destruct (fold_max_ge l neg_infinity eq_refl Hnan) as (N & Lo & All).
  destruct (fold_max_choice l neg_infinity) as [E|I].
  - destruct l as [|a l]; [now elim Hne|]. exists a. split; [now left|].
    apply leb_antisym; [apply All; now left|].
    rewrite E. apply orb_false_iff in Hnan. destruct Hnan as [Ha _].
    clear - Ha. apply is_nan_false in Ha. apply leb_iff.
    repeat split; trivial; [discriminate|].
    unfold number, fkey in *. change (key (Prim2SF neg_infinity)) with (-2, 0, 0)%Z.
    exact (proj1 (key_range (Prim2SF a))).
  - exists (fold_left max_step l neg_infinity). split; trivial.
    now apply eqb_refl.
Qed.

Lemma Math_min_attained (l : list float) :
  l <> [] -> existsb is_nan l = false ->
  exists x, In x l /\ (x =? Math_min l) = true.
Proof.
  intros Hne Hnan. unfold Math_min. rewrite Hnan.
  destruct (fold_min_le l infinity eq_refl Hnan) as (N & Lo & All).
  destruct (fold_min_choice l infinity) as [E|I].
  - destruct l as [|a l]; [now elim Hne|]. exists a. split; [now left|].
    apply leb_antisym; [|apply All; now left].
    rewrite E. apply orb_false_iff in Hnan. destruct Hnan as [Ha _].
    clear - Ha. apply is_nan_false in Ha. apply leb_iff.
    repeat split; trivial; [discriminate|].
    unfold number, fkey in *. change (key (Prim2SF infinity)) with (2, 0, 0)%Z.
    exact (proj2 (key_range (Prim2SF a))).
  - exists (fold_left min_step l infinity). split; trivial.
    now apply eqb_refl.
Qed.

(** The present values of a field, as [Math.max] and [Math.min] receive
    them. *)
Lemma present_values (f : WeatherRecord -> field)
    (data : list WeatherRecord) :
  no_nan f data ->
  existsb is_nan (map ToNumber (filter present (map f data))) = false
  /\ forall v,
       In v (map ToNumber (filter present (map f data)))
       <-> exists d, In d data /\ f d = Num v.
Proof.
  induction 1 as [|d data Hd _ (IH1 & IH2)]; simpl.
  - split; [reflexivity|]. intros v. split; [tauto|]. now intros (d & [] & _).
  - destruct (f d) as [x| |] eqn:E; simpl.
    + rewrite Hd, IH1. split; trivial. intros v. rewrite IH2. split.
      * intros [<-|(d' & Hd' & Ed')].
        -- exists d. split; [now left|exact E].
        -- exists d'. split; [now right|exact Ed'].
      * intros (d' & [<-|Hd'] & Ed').
        -- left. congruence.
        -- right. now exists d'.
    + split; trivial. intros v. rewrite IH2. split.
      * intros (d' & Hd' & Ed'). exists d'. split; [now right|exact Ed'].
      * intros (d' & [<-|Hd'] & Ed'); [congruence|now exists d'].
    + split; trivial. intros v. rewrite IH2. split.
      * intros (d' & Hd' & Ed'). exists d'. split; [now right|exact Ed'].
      * intros (d' & [<-|Hd'] & Ed'); [congruence|now exists d'].
Qed.

Lemma find_first_match (p : WeatherRecord -> bool)
    (data : list WeatherRecord) (d : WeatherRecord) :
  find p data = Some d -> first_match p data d.
Proof.
  unfold first_match. induction data as [|a data IH]; simpl; [discriminate|].
  destruct (p a) eqn:P.
  - intros H. injection H as <-. exists [], data. repeat split; trivial.
  - intros H. destruct (IH H) as (before & after & -> & Pd & F).
    exists (a :: before), after. repeat split; trivial. now constructor.
Qed.

Lemma find_exists (p : WeatherRecord -> bool) (data : list WeatherRecord)
    (d : WeatherRecord) :
  In d data -> p d = true -> exists d', find p data = Some d'.
Proof.
  intros Hin Hp. destruct (find p data) as [d'|] eqn:F; [now exists d'|].
  now rewrite (find_none _ _ F d Hin) in Hp.
Qed.

(** The month label reported for an extreme of a field: when some record
    carries the extreme value, it is the month of the first such record. *)
Lemma month_of_extreme (f : WeatherRecord -> field)
    (data : list WeatherRecord) (x m : float) :
  (exists d, In d data /\ f d = Num x) -> (x =? m) = true ->
  exists d,
    first_match (fun d => strict_eq (f d) (Num m)) data d
    /\ month_of_first (fun d => strict_eq (f d) (Num m)) data = month d.
Proof.
  intros (d0 & Hin & E) Hx.
  destruct (find_exists (fun d => strict_eq (f d) (Num m)) data d0 Hin)
    as (d & F).
  { now rewrite E. }
  exists d. split; [now apply find_first_match|].
  unfold month_of_first. now rewrite F.
Qed.

(** ** Rainfall statistics *)

(** X1: [calculateRainfallStats] on a list with a present rainfall value,
    none being [NaN], returns a summary whose [min] is at most its [max],
    and the two bound every present value. *)
Theorem rainfall_stats_bounds (data : list WeatherRecord) :
  no_nan rainfall data ->
  (exists d v, In d data /\ rainfall d = Num v) ->
  exists s,
    calculateRainfallStats (Some data) = Some s
    /\ (Rainfall.min s <=? Rainfall.max s) = true
    /\ forall d v,
         In d data -> rainfall d = Num v ->
         (Rainfall.min s <=? v) = true /\ (v <=? Rainfall.max s) = true.
Proof.
  intros Hn (d0 & v0 & Hin0 & E0).
  destruct (present_values rainfall data Hn) as (Nan & Mem).
  destruct data as [|a data]; [now elim Hin0|].
  eexists. split; [reflexivity|]. cbn [Rainfall.min Rainfall.max].
  assert (B : forall d v, In d (a :: data) -> rainfall d = Num v ->
              (Math_min (map ToNumber (filter present (map rainfall (a :: data))))
               <=? v) = true
              /\ (v <=? Math_max (map ToNumber
                                   (filter present (map rainfall (a :: data)))))
                 = true).
  { intros d v Hin E. assert (I : In v (map ToNumber
                                   (filter present (map rainfall (a :: data)))))
      by (apply Mem; now exists d).
    split; [now apply Math_min_le | now apply Math_max_ge]. }
  split; [|exact B].
  destruct (B d0 v0 Hin0 E0) as (L1 & L2). eapply leb_trans; eassumption.
Qed.

Lemma rainfall_stats_bounds_witness :
  exists s,
    calculateRainfallStats (Some two_years) = Some s
    /\ (Rainfall.min s <=? Rainfall.max s) = true.
Proof.
  destruct (rainfall_stats_bounds two_years) as (s & E & L & _).
  - repeat constructor.
  - exists (obs (Num 2020) (Num 10) (Num 100) (Num 80) (Num 5)), 100.
    split; [now left|reflexivity].
  - exists s. now split.
Defined.

(** X2: under the same conditions [wettest] is the month of the first
    record whose rainfall is strictly equal to [max], and [driest] the month
    of the first record whose rainfall is strictly equal to [min]; such
    records exist. *)
Theorem rainfall_stats_months (data : list WeatherRecord) :
  no_nan rainfall data ->
  (exists d v, In d data /\ rainfall d = Num v) ->
  exists s dw dd,
    calculateRainfallStats (Some data) = Some s
    /\ first_match (fun d => strict_eq (rainfall d) (Num (Rainfall.max s)))
                   data dw
    /\ Rainfall.wettest s = month dw
    /\ first_match (fun d => strict_eq (rainfall d) (Num (Rainfall.min s)))
                   data dd
    /\ Rainfall.driest s = month dd.
Proof.
  intros Hn (d0 & v0 & Hin0 & E0).
  destruct (present_values rainfall data Hn) as (Nan & Mem).
  assert (Hne : map ToNumber (filter present (map rainfall data)) <> []).
  { intros C. assert (I : In v0 (map ToNumber
                                   (filter present (map rainfall data))))
      by (apply Mem; now exists d0).
    rewrite C in I. exact I. }
  destruct (Math_max_attained _ Hne Nan) as (xh & Ih & Eh).
  destruct (Math_min_attained _ Hne Nan) as (xl & Il & El).
  apply Mem in Ih, Il.
  destruct (month_of_extreme rainfall data xh _ Ih Eh) as (dw & Fw & Mw).
  destruct (month_of_extreme rainfall data xl _ Il El) as (dd & Fd & Md).
  destruct data as [|a data]; [now elim Hin0|].
  eexists. exists dw, dd. split; [reflexivity|].
  cbn [Rainfall.max Rainfall.min Rainfall.wettest Rainfall.driest].
  now repeat split.
Qed.

Lemma rainfall_stats_months_witness :
  exists s, calculateRainfallStats (Some two_years) = Some s.
Proof.
  destruct (rainfall_stats_months two_years) as (s & _ & _ & E & _).
  - repeat constructor.
  - exists (obs (Num 2020) (Num 10) (Num 100) (Num 80) (Num 5)), 100.
    split; [now left|reflexivity].
  - now exists s.
Defined.



(** ** Division by one and addition to zero in binary64 *)

Section Division.

Local Open Scope Z_scope.

(** Rounding to nearest of an exact multiple is exact. *)
Lemma rne_exact (m k q : Z) : 0 <= k -> rne (m * 2 ^ k) k q -> q = m.
Proof.
  intros Hk. unfold rne.
  assert (Hp : 0 < 2 ^ k) by (apply Z.pow_pos_nonneg; lia).
  set (p := 2 ^ k) in *. clearbody p. intros ((L & U) & _). nia.
Qed.

Lemma div_eucl_pair (a b : Z) : Z.div_eucl a b = (a / b, a mod b).
Proof. unfold Z.div, Z.modulo. now destruct (Z.div_eucl a b). Qed.

(** Rounding a value of the format, presented with [k] spare binary digits,
    gives the value back. *)
Lemma binary_round_aux_exact (s : bool) (m : positive) (e k : Z) :
  canonical m e -> e <= 971 -> 0 <= k ->
  binary_round_aux prec emax s (Zpos m * 2 ^ k) (e - k) loc_Exact
  = S754_finite s m e.
Proof.
  intros C He Hk. unfold canonical in C.
  pose proof (digits2_pos_bounds m) as B.
  assert (Hp : 0 < 2 ^ k) by (apply Z.pow_pos_nonneg; lia).
  destruct (Zpos m * 2 ^ k) as [|mk|mk] eqn:Emk; try lia.
  pose proof (digits2_pos_bounds mk) as Bk. rewrite <- Emk in Bk.
  set (d := Zpos (digits2_pos m)) in *.
  set (dk := Zpos (digits2_pos mk)) in *.
  assert (Hd : 1 <= d) by (unfold d; lia).
  assert (Hdk : 1 <= dk) by (unfold dk; lia).
  assert (D : dk = d + k).
  { assert (P1 : 2 ^ (dk - 1) < 2 ^ (d + k)).
    { rewrite Z.pow_add_r by lia. nia. }
    assert (P2 : 2 ^ (d - 1 + k) < 2 ^ dk).
    { rewrite Z.pow_add_r by lia. nia. }
    apply pow2_lt_inv in P1, P2; lia. }
  destruct (binary_round_aux_norm s mk (e - k)) as (q & Hq & R & N).
  - rewrite fexp_eq. fold dk. lia.
  - rewrite N. rewrite fexp_eq in *. fold dk in R |- *.
    replace (Z.max (dk + (e - k) - 53) (-1074)) with e in * by lia.
    replace (e - (e - k)) with k in R by lia.
    rewrite <- Emk in R. apply rne_exact in R; [|lia]. subst q.
    unfold norm. change (2 ^ prec) with (2 ^ 53).
    change (emax - prec) with 971.
    assert (L : Zpos m < 2 ^ 53).
    { assert (2 ^ d <= 2 ^ 53) by (apply Z.pow_le_mono_r; lia). lia. }
    apply Z.ltb_lt in L. rewrite L.
    apply Z.leb_le in He. now rewrite He.
Qed.

(** Dividing a finite value by one gives it back. *)
Lemma SFdiv_finite_one (s : bool) (m : positive) (e : Z) :
  canonical m e -> e <= 971 ->
  SFdiv prec emax (S754_finite s m e)
        (S754_finite false 4503599627370496 (-52))
  = S754_finite s m e.
Proof.
  intros C He. unfold SFdiv, SFdiv_core_binary. rewrite xorb_false_r.
  cbn [Zdigits2]. rewrite fexp_eq.
  change (Zpos (digits2_pos 4503599627370496)) with 53.
  set (d := Zpos (digits2_pos m)).
  assert (Hd : 1 <= d) by (unfold d; lia).
  assert (C' : e = Z.max (d + e - 53) (-1074)) by exact C.
  set (e' := Z.min (Z.max (d + e - (53 + -52) - 53) (-1074)) (e - -52)).
  assert (K : e - -52 - e' = 52 \/ e - -52 - e' = 53) by lia.
  assert (S : exists k, 0 <= k /\ e - -52 - e' = 52 + k /\ e' = e - k).
  { destruct K as [K|K]; [exists 0|exists 1]; lia. }
  destruct S as (k & Hk & Es & Ee).
  rewrite Es.
  destruct (52 + k) as [|p|p] eqn:Ep; try lia.
  rewrite <- Ep, Z.shiftl_mul_pow2 by lia.
  rewrite div_eucl_pair.
  replace (Zpos m * 2 ^ (52 + k)) with (Zpos m * 2 ^ k * 4503599627370496).
  2:{ rewrite Z.pow_add_r by lia. change (2 ^ 52) with 4503599627370496.
      ring. }
  rewrite Z.div_mul, Z.mod_mul by lia.
  change (new_location 4503599627370496 0) with loc_Exact.
  rewrite Ee. now apply binary_round_aux_exact.
Qed.

End Division.

Lemma float_div_one (x : float) : x / 1 = x.
Proof.
  apply Prim2SF_inj. rewrite div_spec.
  change (Prim2SF 1) with (S754_finite false 4503599627370496 (-52)).
  pose proof (Prim2SF_valid x) as V.
  destruct (Prim2SF x) as [s|s| |s m e]; try reflexivity.
  - cbn. now rewrite xorb_false_r.
  - cbn. now rewrite xorb_false_r.
  - apply valid_finite in V. destruct V as (C & He).
    now apply SFdiv_finite_one.
Qed.

Lemma float_zero_add (v : float) : 0 + v = without_negative_zero v.
Proof.
  unfold without_negative_zero.
  destruct (Leibniz.eqb v (-0)) eqn:E.
  - apply Leibniz.eqb_spec in E. now subst.
  - apply Prim2SF_inj. rewrite add_spec.
    change (Prim2SF 0) with (S754_zero false).
    destruct (Prim2SF v) as [[|]|s| |s m e] eqn:P; try reflexivity.
    assert (V : v = (-0)%float) by (apply Prim2SF_inj; now rewrite P).
    subst v. discriminate E.
Qed.

(** ** Moving average *)

Lemma slice_range {A : Type} (l : list A) (lo hi : Z) :
  (0 <= lo <= hi)%Z -> (hi <= Z.of_nat (List.length l))%Z ->
  slice l lo hi = firstn (Z.to_nat (hi - lo)) (skipn (Z.to_nat lo) l).
Proof.
  intros H1 H2. unfold slice, slice_index.
  destruct (lo <? 0)%Z eqn:L; [apply Z.ltb_lt in L; lia|].
  destruct (hi <? 0)%Z eqn:H; [apply Z.ltb_lt in H; lia|].
  now rewrite !Z.min_l by lia.
Qed.

Lemma slice_empty {A : Type} (l : list A) (lo hi : Z) :
  (0 <= hi <= lo)%Z -> slice l lo hi = [].
Proof.
  intros H. unfold slice, slice_index.
  destruct (lo <? 0)%Z eqn:L; [apply Z.ltb_lt in L; lia|].
  destruct (hi <? 0)%Z eqn:Hh; [apply Z.ltb_lt in Hh; lia|].
  replace (Z.to_nat _) with 0%nat by lia. reflexivity.
Qed.

Lemma slice_one {A : Type} (l : list A) (i : nat) (d : A) :
  (i < List.length l)%nat ->
  slice l (Z.of_nat i) (Z.of_nat i + 1) = [nth i l d].
Proof.
  intros H. rewrite slice_range by lia.
  replace (Z.to_nat (Z.of_nat i + 1 - Z.of_nat i)) with 1%nat by lia.
  rewrite Nat2Z.id. revert i H.
  induction l as [|a l IH]; intros [|i] H; simpl in *; try lia; trivial.
  apply IH. lia.
Qed.

Lemma map_nth_seq {A B : Type} (f : A -> B) (l : list A) (d : A) :
  map (fun i => f (nth i l d)) (seq 0 (List.length l)) = map f l.
Proof.
  induction l as [|a l IH]; simpl; trivial.
  f_equal. rewrite <- seq_shift, map_map. exact IH.
Qed.

Lemma map_seq_ext {B : Type} (f g : nat -> B) (n : nat) :
  (forall i, (i < n)%nat -> f i = g i) -> map f (seq 0 n) = map g (seq 0 n).
Proof.
  intros H. apply map_ext_in. intros i Hi. apply in_seq in Hi. apply H. lia.
Qed.

Lemma nth_map_seq {B : Type} (f : nat -> B) (n i : nat) (d : B) :
  (i < n)%nat -> nth i (map f (seq 0 n)) d = f i.
Proof.
  intros H. rewrite (nth_indep _ d (f 0%nat))
    by (now rewrite length_map, length_seq).
  rewrite map_nth, seq_nth by lia. reflexivity.
Qed.

(** X4: with the window [1] the moving average of an array of numbers is the
    array itself, a [-0] being returned as [+0]: the average of one value is
    exact. *)
Theorem moving_average_window_one (values : list float) :
  calculateMovingAverage (map Num values) 1
  = map without_negative_zero values.
Proof.
  unfold calculateMovingAverage. rewrite length_map.
  rewrite <- (map_nth_seq without_negative_zero values 0).
  apply map_seq_ext. intros i Hi.
  change (1 / 2)%Z with 0%Z. change ((1 + 1) / 2)%Z with 1%Z.
  rewrite Z.sub_0_r, Z.max_r, Z.min_r by lia.
  rewrite (slice_one (map Num values) i (Num 0))
    by (now rewrite length_map).
  change (Num 0) with (Num 0%float).
  rewrite (map_nth Num values 0%float i).
  unfold calculateAverage, sum_values. cbn [fold_left ToNumber].
  change (length_num [Num (nth i values 0%float)]) with 1%float.
  now rewrite float_div_one, float_zero_add.
Qed.

(** X5: the result has the length of the input, and a window of at least
    twice that length gives the average of the whole array at every
    index. *)
Theorem moving_average_wide_window (data : list field) (window : Z) :
  (2 * Z.of_nat (List.length data) <= window)%Z ->
  calculateMovingAverage data window
  = map (fun _ => calculateAverage data) data.
Proof.
  intros H. unfold calculateMovingAverage.
  rewrite <- (map_nth_seq (fun _ => calculateAverage data) data Null).
  apply map_seq_ext. intros i Hi.
  assert (Z.of_nat (List.length data) <= window / 2)%Z
    by (apply Z.div_le_lower_bound; lia).
  assert (Z.of_nat (List.length data) <= (window + 1) / 2)%Z
    by (apply Z.div_le_lower_bound; lia).
  rewrite Z.max_l, Z.min_l by lia.
  rewrite slice_range by lia.
  rewrite Z.sub_0_r, Nat2Z.id. simpl skipn. now rewrite firstn_all.
Qed.

Lemma moving_average_wide_window_witness :
  calculateMovingAverage [Num 1; Num 2; Num 3] 6
  = map (fun _ => calculateAverage [Num 1; Num 2; Num 3])
        [Num 1; Num 2; Num 3].
Proof.
  apply (moving_average_wide_window [Num 1; Num 2; Num 3] 6).
  simpl. lia.
Defined.

(** X6: for a window of at least [1], the output at every index is the
    average of a slice of the input that holds the value at that index and
    at most [window] values: near the ends the window shrinks, it does not
    wrap; and the output has the length of the input. *)
Theorem moving_average_slices (data : list field) (window : Z) (i : nat) :
  (1 <= window)%Z -> (i < List.length data)%nat ->
  List.length (calculateMovingAverage data window) = List.length data
  /\ exists lo hi : nat,
       (lo <= i < hi)%nat /\ (hi <= List.length data)%nat
       /\ (Z.of_nat (hi - lo) <= window)%Z
       /\ nth i (calculateMovingAverage data window) 0
          = calculateAverage (firstn (hi - lo) (skipn lo data)).
Proof.
  intros Hw Hi. unfold calculateMovingAverage.
  split; [now rewrite length_map, length_seq|].
  set (n := List.length data) in *.
  assert (H1 : (0 <= window / 2)%Z) by (apply Z.div_pos; lia).
  assert (H2 : (1 <= (window + 1) / 2)%Z)
    by (apply Z.div_le_lower_bound; lia).
  assert (H3 : (window / 2 + (window + 1) / 2 <= window)%Z).
  { pose proof (Z.div_mod window 2 ltac:(lia)).
    pose proof (Z.mod_pos_bound window 2 ltac:(lia)).
    pose proof (Z.div_mod (window + 1) 2 ltac:(lia)).
    pose proof (Z.mod_pos_bound (window + 1) 2 ltac:(lia)). lia. }
  set (lo := Z.max 0 (Z.of_nat i - window / 2)).
  set (hi := Z.min (Z.of_nat n) (Z.of_nat i + (window + 1) / 2)).
  exists (Z.to_nat lo), (Z.to_nat hi).
  repeat split; try lia.
  rewrite nth_map_seq by lia. cbn beta zeta.
  fold lo hi. rewrite slice_range by lia.
  do 2 f_equal. lia.
Qed.

Lemma moving_average_slices_witness :
  List.length (calculateMovingAverage [Num 1; Num 2; Num 3] 3) = 3%nat.
Proof.
  apply (moving_average_slices [Num 1; Num 2; Num 3] 3 0); simpl; lia.
Defined.

(** ** Year selection *)

Lemma eqb_nan_r (x y : float) : is_nan y = true -> (x =? y) = false.
Proof.
  intros H. destruct (x =? y) eqn:E; trivial.
  apply eqb_iff in E. destruct E as (_ & N & _).
  apply is_nan_false in N. congruence.
Qed.

(** X7: a year selector other than ["all"] that [parseInt] cannot read
    selects no record, and both summaries of the selection are [null]. *)
Theorem getFilteredData_unparseable (parseInt : value -> float)
    (data : option Data.t) (selectedYear : value) :
  value_strict_eq selectedYear (VStr "all") = false ->
  is_nan (parseInt selectedYear) = true ->
  getFilteredData parseInt data selectedYear = []
  /\ calculateTemperatureStats
       (Some (getFilteredData parseInt data selectedYear)) = None
  /\ calculateRainfallStats
       (Some (getFilteredData parseInt data selectedYear)) = None.
Proof.
  intros Hall Hnan.
  assert (E : getFilteredData parseInt data selectedYear = []).
  { unfold getFilteredData. destruct data as [data|]; trivial.
    rewrite Hall.
    assert (F : forall l,
               filter (fun d => strict_eq (year d)
                                          (Num (parseInt selectedYear))) l
               = []).
    { induction l as [|d l IH]; simpl; trivial.
      destruct (year d) as [y| |]; simpl; trivial.
      now rewrite (eqb_nan_r y _ Hnan). }
    destruct (Data.monthly data), (Data.yearly data); trivial. }
  rewrite E. repeat split.
Qed.

Lemma getFilteredData_unparseable_witness :
  getFilteredData (fun _ => nan)
    (Some {| Data.monthly := Some tenths; Data.yearly := Some two_years |})
    (VStr "next year") = [].
Proof.
  apply (getFilteredData_unparseable (fun _ => nan)); reflexivity.
Defined.

(** ** Data summary *)

Lemma summary_values_spec (workingData : list WeatherRecord)
    (metric : Metric) :
  existsb is_nan (summary_values workingData metric) = false
  /\ forall v,
       In v (summary_values workingData metric)
       <-> exists d,
             In d workingData /\ metric_of d metric = Num v
             /\ is_nan v = false.
Proof.
  unfold summary_values, isNaN.
  induction workingData as [|d l (IH1 & IH2)]; simpl.
  - split; trivial. intros v. split; [tauto|]. now intros (d & [] & _).
  - destruct (metric_of d metric) as [x| |] eqn:E; simpl.
    + destruct (is_nan x) eqn:N; simpl.
      * split; trivial. intros v. rewrite IH2. split.
        -- intros (d' & H & K). exists d'. split; [now right|exact K].
        -- intros (d' & [<-|H] & K1 & K2); [congruence|now exists d'].
      * rewrite ?N, IH1. split; trivial. intros v. rewrite IH2. split.
        -- intros [<-|(d' & H & K)].
           ++ exists d. repeat split; trivial. now left.
           ++ exists d'. split; [now right|exact K].
        -- intros (d' & [<-|H] & K1 & K2).
           ++ left. congruence.
           ++ right. now exists d'.
    + split; trivial. intros v. rewrite IH2. split.
      * intros (d' & H & K). exists d'. split; [now right|exact K].
      * intros (d' & [<-|H] & K1 & K2); [congruence|now exists d'].
    + split; trivial. intros v. rewrite IH2. split.
      * intros (d' & H & K). exists d'. split; [now right|exact K].
      * intros (d' & [<-|H] & K1 & K2); [congruence|now exists d'].
Qed.

Lemma getDataSummary_some (data : option Data.t)
    (dataset : option (list WeatherRecord))
    (summary : list (Metric * Summary.t)) :
  getDataSummary data dataset = Some summary ->
  summary
  = flat_map (metric_summary (working_data data dataset)) summary_metrics.
Proof.
  unfold getDataSummary.
  destruct (working_data data dataset); [discriminate|].
  intros H. now injection H as <-.
Qed.

Lemma summary_entry (data : option Data.t)
    (dataset : option (list WeatherRecord))
    (summary : list (Metric * Summary.t)) (metric : Metric)
    (st : Summary.t) :
  getDataSummary data dataset = Some summary ->
  In (metric, st) summary ->
  let values := summary_values (working_data data dataset) metric in
  values <> []
  /\ In metric summary_metrics
  /\ Summary.min st = Math_min values
  /\ Summary.max st = Math_max values.
Proof.
  intros H Hin. apply getDataSummary_some in H. subst summary.
  apply in_flat_map in Hin. destruct Hin as (m & Hm & Hin).
  unfold metric_summary in Hin.
  destruct (summary_values (working_data data dataset) m) as [|v vs] eqn:V;
    [now elim Hin|].
  destruct Hin as [Hin|[]]. injection Hin as <- <-.
  cbn [Summary.min Summary.max]. cbv zeta. rewrite V.
  repeat split; trivial. discriminate.
Qed.

(** X8: in a summary every entry has [min] and [max] that bound all the
    values of its metric that are present and not [NaN], and that are the
    values of two records: an entry never carries the [Infinity] of an empty
    list. *)
Theorem data_summary_extremes (data : option Data.t)
    (dataset : option (list WeatherRecord))
    (summary : list (Metric * Summary.t)) (metric : Metric)
    (st : Summary.t) :
  getDataSummary data dataset = Some summary ->
  In (metric, st) summary ->
  let workingData := working_data data dataset in
  (exists d v, In d workingData /\ metric_of d metric = Num v
               /\ (v =? Summary.min st) = true)
  /\ (exists d v, In d workingData /\ metric_of d metric = Num v
                  /\ (v =? Summary.max st) = true)
  /\ (Summary.min st <=? Summary.max st) = true
  /\ forall d v,
       In d workingData -> metric_of d metric = Num v -> is_nan v = false ->
       (Summary.min st <=? v) = true /\ (v <=? Summary.max st) = true.
Proof.
  intros H Hin workingData.
  destruct (summary_entry _ _ _ _ _ H Hin) as (Hne & _ & -> & ->).
  fold workingData in Hne |- *.
  destruct (summary_values_spec workingData metric) as (Nan & Mem).
  destruct (Math_min_attained _ Hne Nan) as (xl & Il & El).
  destruct (Math_max_attained _ Hne Nan) as (xh & Ih & Eh).
  pose proof (Math_min_le _ xl Nan Il) as L1.
  pose proof (Math_max_ge _ xh Nan Ih) as L2.
  pose proof (Math_max_ge _ xl Nan Il) as L3.
  apply Mem in Il, Ih.
  destruct Il as (dl & Hdl & Edl & _), Ih as (dh & Hdh & Edh & _).
  split; [now exists dl, xl|]. split; [now exists dh, xh|].
  split; [eapply leb_trans; eassumption|].
  intros d v Hd E N.
  assert (I : In v (summary_values workingData metric))
    by (apply Mem; now exists d).
  split; [now apply Math_min_le | now apply Math_max_ge].
Qed.

Lemma data_summary_extremes_witness :
  exists summary st,
    getDataSummary None (Some two_years) = Some summary
    /\ In (Mtemp, st) summary
    /\ (Summary.min st <=? Summary.max st) = true.
Proof.
  exists (flat_map (metric_summary two_years) summary_metrics).
  exists {| Summary.min := Math_min (summary_values two_years Mtemp);
            Summary.max := Math_max (summary_values two_years Mtemp);
            Summary.avg := sum_floats (summary_values two_years Mtemp)
                           / length_num (summary_values two_years Mtemp);
            Summary.total := None |}.
  assert (I : In (Mtemp,
                  {| Summary.min := Math_min (summary_values two_years Mtemp);
                     Summary.max := Math_max (summary_values two_years Mtemp);
                     Summary.avg :=
                       sum_floats (summary_values two_years Mtemp)
                       / length_num (summary_values two_years Mtemp);
                     Summary.total := None |})
                 (flat_map (metric_summary two_years) summary_metrics))
    by (left; reflexivity).
  split; [reflexivity|]. split; [exact I|].
  destruct (data_summary_extremes None (Some two_years) _ _ _ eq_refl I)
    as (_ & _ & L & _).
  exact L.
Defined.

(** X9: the summary is [null] exactly for empty working data, and otherwise
    it has an entry for a metric exactly when some record carries a value of
    that metric that is present and not [NaN]; the entries come in the order
    of the metrics. *)
Theorem data_summary_entries (data : option Data.t)
    (dataset : option (list WeatherRecord)) :
  let workingData := working_data data dataset in
  (workingData = [] -> getDataSummary data dataset = None)
  /\ (workingData <> [] ->
      exists summary,
        getDataSummary data dataset = Some summary
        /\ map fst summary
           = filter (fun metric =>
                       existsb (fun d => present (metric_of d metric)
                                         && negb (isNaN (metric_of d metric)))
                               workingData)
                    summary_metrics).
Proof.
  intros workingData. unfold getDataSummary. fold workingData. split.
  - now intros ->.
  - intros Hne. destruct workingData as [|d0 l] eqn:W; [now elim Hne|].
    eexists. split; [reflexivity|].
    rewrite <- W. clear.
    assert (K : forall metric,
               summary_values workingData metric = []
               <-> existsb (fun d => present (metric_of d metric)
                                     && negb (isNaN (metric_of d metric)))
                           workingData = false).
    { intros metric. unfold summary_values.
      induction workingData as [|d l IH]; simpl; [tauto|].
      destruct (present (metric_of d metric)
                && negb (isNaN (metric_of d metric))); simpl.
      - split; discriminate.
      - exact IH. }
    induction summary_metrics as [|m ms IH]; simpl; trivial.
    rewrite map_app, IH. unfold metric_summary.
    destruct (summary_values workingData m) as [|v vs] eqn:V.
    + apply K in V. now rewrite V.
    + destruct (existsb _ workingData) eqn:X; trivial.
      apply K in X. congruence.
Qed.

(** ** Seasonal summaries *)

Lemma sub_nan_l (x : float) : nan - x = nan.
Proof. apply Prim2SF_inj. rewrite sub_spec. reflexivity. Qed.

Lemma sub_nan_r (x : float) : x - nan = nan.
Proof.
  apply Prim2SF_inj. rewrite sub_spec.
  change (Prim2SF nan) with S754_nan. now destruct (Prim2SF x).
Qed.

(** X10: when the data have no winter month, or no summer month, the
    seasonal variation is [NaN]: the mean of no record is [0 / 0]. *)
Theorem seasonal_variation_nan (data : list WeatherRecord) :
  filter (fun d => includes ["Dec"; "Jan"; "Feb"]%string (month d)) data = []
  \/ filter (fun d => includes ["Jun"; "Jul"; "Aug"]%string (month d)) data
     = [] ->
  calculateSeasonalVariation data = nan.
Proof.
  unfold calculateSeasonalVariation. intros [-> | ->].
  - change (unguarded_mean temp []) with nan. apply sub_nan_r.
  - change (unguarded_mean temp []) with nan. apply sub_nan_l.
Qed.

Lemma seasonal_variation_nan_witness :
  calculateSeasonalVariation [monthly "Jul" (Num 20) (Num 14) (Num 25)] = nan.
Proof.
  apply seasonal_variation_nan. left. reflexivity.
Defined.

(** X11: the overview reports the four seasons in order, and a season of
    which the data hold no month gets the averages [NaN] and the totals
    [0]. *)
Theorem overview_empty_season (data : list WeatherRecord) :
  map Overview.season (Overview.getSeasonalData data)
  = ["Winter"; "Spring"; "Summer"; "Fall"]%string
  /\ forall name months s,
       In (name, months) Overview.seasons ->
       In s (Overview.getSeasonalData data) ->
       Overview.season s = name ->
       filter (fun d => includes months (month d)) data = [] ->
       Overview.avgTemp s = nan /\ Overview.avgHumidity s = nan
       /\ Overview.totalRainfall s = 0 /\ Overview.totalSunshine s = 0.
Proof.
  split; [reflexivity|].
  intros name months s Hin Hs Hname Hempty.
  unfold Overview.getSeasonalData in Hs. apply in_map_iff in Hs.
  destruct Hs as ((name' & months') & <- & Hin'). cbn in Hname. subst name'.
  assert (months' = months).
  { unfold Overview.seasons in *. simpl in Hin, Hin'.
    repeat match goal with
           | H : _ \/ _ |- _ => destruct H as [H|H]
           | H : (_, _) = (_, _) |- _ => inversion H; subst; clear H
           | H : False |- _ => elim H
           end; reflexivity. }
  subst months'. cbn [Overview.avgTemp Overview.avgHumidity
                       Overview.totalRainfall Overview.totalSunshine snd].
  rewrite Hempty. repeat split.
Qed.

Lemma overview_empty_season_witness :
  Forall (fun s => Overview.season s = "Winter"%string ->
                   Overview.avgTemp s = nan)
    (Overview.getSeasonalData [monthly "Jul" (Num 20) (Num 14) (Num 25)]).
Proof.
  apply Forall_forall. intros s Hs Hname.
  exact (proj1 (proj2 (overview_empty_season _) _ _ s
                  (or_introl eq_refl) Hs Hname eq_refl)).
Defined.

(** ** Correlation matrix *)

Lemma metric_eqb_eq (a b : Metric) : metric_eqb a b = true <-> a = b.
Proof. destruct a, b; simpl; split; intros H; congruence. Qed.

Lemma metric_eqb_sym (a b : Metric) : metric_eqb a b = metric_eqb b a.
Proof. now destruct a, b. Qed.

Lemma matrix_entry_sym (data : list WeatherRecord) (a b : Metric) :
  matrix_entry data a b = matrix_entry data b a.
Proof.
  unfold matrix_entry.
  set (va := filter present (map (fun d => metric_of d a) data)).
  set (vb := filter present (map (fun d => metric_of d b) data)).
  destruct (Nat.eqb (List.length va) (List.length vb)) eqn:E.
  - apply Nat.eqb_eq in E. rewrite <- E, Nat.eqb_refl. simpl.
    destruct (Nat.ltb 0 (List.length va)); trivial. f_equal.
    assert (L : List.length (map ToNumber va) = List.length (map ToNumber vb))
      by (now rewrite !length_map).
    unfold calculateCorrelation. rewrite <- L, Nat.eqb_refl. simpl.
    now rewrite (correlation_numerator_comm _ _ L),
      (correlation_radicand_comm _ _ L).
  - rewrite Nat.eqb_sym in E. now rewrite E.
Qed.

Lemma find_app_split {B : Type} (p : B -> bool) (l1 l2 : list B) :
  find p (l1 ++ l2)
  = match find p l1 with Some x => Some x | None => find p l2 end.
Proof.
  induction l1 as [|x l1 IH]; simpl; trivial. now destruct (p x).
Qed.

(** A key is found among the cells of the variables only in the cells of
    its own variable. *)
Lemma find_flat_map_metric {B : Type} (p : B -> bool)
    (g : Metric -> list B) (l : list Metric) (x0 : Metric) :
  (forall x, x <> x0 -> find p (g x) = None) ->
  find p (flat_map g l)
  = if existsb (metric_eqb x0) l then find p (g x0) else None.
Proof.
  intros Hother. induction l as [|x l IH]; simpl; trivial.
  rewrite find_app_split, IH.
  destruct (metric_eqb x0 x) eqn:E; simpl.
  - apply metric_eqb_eq in E. subst x.
    destruct (find p (g x0)); trivial. now destruct (existsb _ l).
  - rewrite Hother; trivial. intros ->.
    assert (T : metric_eqb x0 x0 = true) by now apply metric_eqb_eq.
    congruence.
Qed.

(** What the page reads under the key of [var1] and [var2]. *)
Lemma matrix_get_spec (data : list WeatherRecord) (var1 var2 : Metric) :
  matrix_get (correlationMatrix (Some data)) var1 var2
  = if existsb (metric_eqb var1) correlation_variables
       && existsb (metric_eqb var2) correlation_variables
       && negb (metric_eqb var1 var2)
    then matrix_entry data var1 var2
    else None.
Proof.
  destruct data as [|d0 data'].
  { simpl. now destruct (_ && _). }
  set (data := d0 :: data'). unfold matrix_get, correlationMatrix.
  fold data.
  set (hit := fun e : Metric * Metric * float =>
                metric_eqb (fst (fst e)) var1 && metric_eqb (snd (fst e)) var2).
  set (cell := fun v1 v2 : Metric =>
                 if negb (metric_eqb v1 v2)
                 then match matrix_entry data v1 v2 with
                      | Some r => [((v1, v2), r)]
                      | None => []
                      end
                 else []).
  assert (Hcell : forall v1 v2, v1 <> var1 \/ v2 <> var2 ->
                                find hit (cell v1 v2) = None).
  { intros v1 v2 Hne. unfold cell.
    destruct (negb (metric_eqb v1 v2)); trivial.
    destruct (matrix_entry data v1 v2); trivial. simpl. unfold hit. simpl.
    destruct (metric_eqb v1 var1) eqn:E1; trivial.
    destruct (metric_eqb v2 var2) eqn:E2; trivial.
    apply metric_eqb_eq in E1, E2. destruct Hne; contradiction. }
  assert (Hrow : forall v1,
             find hit (flat_map (cell v1) correlation_variables)
             = if existsb (metric_eqb var2) correlation_variables
               then find hit (cell v1 var2) else None).
  { intros v1. apply find_flat_map_metric. intros x Hx. apply Hcell. now right. }
  change (option_map snd
            (find hit (flat_map (fun v1 => flat_map (cell v1)
                                             correlation_variables)
                         correlation_variables))
          = if existsb (metric_eqb var1) correlation_variables
               && existsb (metric_eqb var2) correlation_variables
               && negb (metric_eqb var1 var2)
            then matrix_entry data var1 var2
            else None).
  rewrite (find_flat_map_metric hit _ _ var1).
  2:{ intros x Hx. rewrite Hrow. destruct (existsb _ _); trivial.
      apply Hcell. now left. }
  rewrite Hrow.
  destruct (existsb (metric_eqb var1) correlation_variables); trivial.
  destruct (existsb (metric_eqb var2) correlation_variables); trivial.
  simpl. unfold cell. destruct (negb (metric_eqb var1 var2)); trivial.
  destruct (matrix_entry data var1 var2); trivial. simpl. unfold hit. simpl.
  assert (T : forall m, metric_eqb m m = true)
    by (intros m; now apply metric_eqb_eq).
  now rewrite !T.
Qed.

(** X12: the correlation matrix is symmetric: the page reads under the
    key of [var2] and [var1] what it reads under the key of [var1] and
    [var2], a coefficient or nothing. *)
Theorem correlation_matrix_symmetric (data : option (list WeatherRecord))
    (var1 var2 : Metric) :
  matrix_get (correlationMatrix data) var1 var2
  = matrix_get (correlationMatrix data) var2 var1.
Proof.
  destruct data as [data|]; trivial.
  rewrite !matrix_get_spec, (metric_eqb_sym var2 var1),
    (matrix_entry_sym data var2 var1).
  now destruct (existsb (metric_eqb var1) correlation_variables),
    (existsb (metric_eqb var2) correlation_variables).
Qed.

(** X13: the matrix holds a coefficient for two variables exactly when
    they are two different ones of the four, and the data hold as many
    values of the one as of the other, and at least one; it is then the
    coefficient of the values present, each list filtered on its own. *)
Theorem correlation_matrix_entries (data : list WeatherRecord)
    (var1 var2 : Metric) (r : float) :
  matrix_get (correlationMatrix (Some data)) var1 var2 = Some r
  <-> In var1 correlation_variables /\ In var2 correlation_variables
      /\ var1 <> var2
      /\ (let values1 :=
            filter present (map (fun d => metric_of d var1) data) in
          let values2 :=
            filter present (map (fun d => metric_of d var2) data) in
          List.length values1 = List.length values2
          /\ (0 < List.length values1)%nat
          /\ r = calculateCorrelation (map ToNumber values1)
                                      (map ToNumber values2)).
Proof.
  rewrite matrix_get_spec. cbv zeta.
  assert (Hin : forall v, existsb (metric_eqb v) correlation_variables = true
                          <-> In v correlation_variables).
  { intros v. rewrite existsb_exists. split.
    - intros (x & Hx & E). apply metric_eqb_eq in E. now subst.
    - intros H. exists v. split; trivial. now apply metric_eqb_eq. }
  unfold matrix_entry.
  set (values1 := filter present (map (fun d => metric_of d var1) data)).
  set (values2 := filter present (map (fun d => metric_of d var2) data)).
  split.
  - intros H.
    destruct (existsb (metric_eqb var1) correlation_variables) eqn:E1;
      [|discriminate].
    destruct (existsb (metric_eqb var2) correlation_variables) eqn:E2;
      [|discriminate].
    destruct (metric_eqb var1 var2) eqn:E3; [discriminate|]. simpl in H.
    destruct (Nat.eqb (List.length values1) (List.length values2)) eqn:E4;
      [|discriminate].
    destruct (Nat.ltb 0 (List.length values1)) eqn:E5; [|discriminate].
    simpl in H. injection H as <-.
    apply Hin in E1, E2. apply Nat.eqb_eq in E4. apply Nat.ltb_lt in E5.
    repeat split; trivial. intros ->.
    assert (T : metric_eqb var2 var2 = true) by now apply metric_eqb_eq.
    congruence.
  - intros (H1 & H2 & Hne & Hlen & Hpos & ->).
    apply Hin in H1, H2. rewrite H1, H2.
    destruct (metric_eqb var1 var2) eqn:E3.
    { apply metric_eqb_eq in E3. contradiction. }
    simpl. apply Nat.eqb_eq in Hlen. apply Nat.ltb_lt in Hpos.
    now rewrite Hlen, Hpos.
Qed.

(** ** The sign of a difference *)

Section Subtraction.

Local Open Scope Z_scope.

Lemma iter_xO_value (n m : positive) :
  Zpos (Pos.iter xO m n) = Zpos m * 2 ^ Zpos n.
Proof.
  revert m. induction n as [|n IH] using Pos.peano_ind; intros m.
  - simpl. lia.
  - rewrite Pos.iter_succ, Pos2Z.inj_succ, Z.pow_succ_r by lia.
    change (Zpos (Pos.iter xO m n)~0) with (2 * Zpos (Pos.iter xO m n)).
    rewrite IH. lia.
Qed.

Lemma shl_align_value (m : positive) (e ez : Z) :
  ez <= e ->
  Zpos (fst (shl_align m e ez)) = Zpos m * 2 ^ (e - ez)
  /\ snd (shl_align m e ez) = ez.
Proof.
  intros H. unfold shl_align. destruct (ez - e) as [|d|d] eqn:D; try lia.
  - assert (e = ez) by lia. subst. rewrite Z.sub_diag, Z.pow_0_r.
    cbn [fst snd]. lia.
  - cbn [fst snd]. rewrite iter_xO_value. split; trivial. f_equal. f_equal.
    lia.
Qed.

Lemma digits_unique (m : positive) (d : Z) :
  2 ^ (d - 1) <= Zpos m < 2 ^ d -> 1 <= d -> Zpos (digits2_pos m) = d.
Proof.
  intros B Hd. pose proof (digits2_pos_bounds m) as B'.
  set (d' := Zpos (digits2_pos m)) in *.
  assert (1 <= d') by (unfold d'; lia).
  assert (d - 1 < d') by (apply pow2_lt_inv; lia).
  assert (d' - 1 < d) by (apply pow2_lt_inv; lia).
  lia.
Qed.

(** Rounding a positive integer at an exponent of the format gives a
    positive value. *)
Lemma binary_round_positive (m : positive) (e : Z) :
  -1074 <= e -> positive_sf (binary_round prec emax false m e) = true.
Proof.
  intros He. unfold binary_round.
  pose proof (digits2_pos_bounds m) as B.
  set (d := Zpos (digits2_pos m)) in *.
  assert (Hd : 1 <= d) by (unfold d; lia).
  rewrite fexp_eq. set (f := Z.max (d + e - 53) (-1074)).
  destruct (shl_align m e f) as [mz ez] eqn:S.
  assert (Q : exists q fz, 1 <= q <= 2 ^ prec
              /\ binary_round_aux prec emax false (Zpos mz) ez loc_Exact
                 = norm false q fz).
  { destruct (Z_le_gt_dec e f) as [L|G].
    - (* no shift *)
      unfold shl_align in S. destruct (f - e) eqn:D; try lia;
        injection S as <- <-;
        (destruct (binary_round_aux_norm false m e) as (q & Hq & R & ->);
         [rewrite fexp_eq; fold d; fold f; lia|]);
        exists q; eexists; (split; [|reflexivity]);
        rewrite fexp_eq in R; fold d in R; fold f in R;
        (split; [|lia]);
        destruct R as ((_ & R) & _).
      + assert (f = e) by lia. replace (f - e) with 0 in R by lia.
        rewrite Z.pow_0_r in R. lia.
      + assert (K : f - e = d - 53) by lia. rewrite K in R.
        assert (0 <= d - 53) by lia.
        assert (P : 2 ^ (d - 1) = 2 ^ (d - 53) * 2 ^ 52).
        { rewrite <- Z.pow_add_r by lia. f_equal. lia. }
        assert (0 < 2 ^ (d - 53)) by (apply Z.pow_pos_nonneg; lia).
        set (pw := 2 ^ (d - 53)) in *. clearbody pw.
        change (2 ^ 52) with 4503599627370496 in P. nia.
    - (* shift *)
      destruct (shl_align_value m e f ltac:(lia)) as (V1 & V2).
      rewrite S in V1, V2. cbn [fst snd] in V1, V2. subst ez.
      assert (Hp : 0 < 2 ^ (e - f)) by (apply Z.pow_pos_nonneg; lia).
      assert (Dz : Zpos (digits2_pos mz) = d + (e - f)).
      { apply digits_unique; [|lia]. rewrite V1.
        replace (d + (e - f) - 1) with ((d - 1) + (e - f)) by lia.
        rewrite (Z.pow_add_r 2 (d - 1) (e - f)), (Z.pow_add_r 2 d (e - f))
          by lia.
        set (a := 2 ^ (d - 1)) in *. set (b := 2 ^ d) in *.
        set (c := 2 ^ (e - f)) in *. clearbody a b c. split; nia. }
      destruct (binary_round_aux_norm false mz f) as (q & Hq & R & ->).
      { rewrite fexp_eq, Dz. unfold f. lia. }
      exists q; eexists; (split; [|reflexivity]).
      rewrite fexp_eq, Dz in R.
      replace (Z.max (d + (e - f) + f - 53) (-1074) - f) with 0 in R
        by (unfold f; lia).
      destruct R as ((_ & R) & _). rewrite Z.pow_0_r in R. lia. }
  destruct Q as (q & fz & Hq & ->). unfold norm.
  destruct q as [|q|q]; try lia.
  destruct (Zpos q <? 2 ^ prec).
  - now destruct (fz <=? emax - prec).
  - now destruct (fz + 1 <=? emax - prec).
Qed.

Lemma binary_round_negative (m : positive) (e : Z) :
  positive_sf (binary_round prec emax true m e) = false.
Proof.
  unfold binary_round.
  destruct (shl_align m e _) as [mz ez].
  pose proof (binary_round_aux_sign true (Zpos mz) ez loc_Exact) as H.
  destruct (binary_round_aux prec emax true (Zpos mz) ez loc_Exact);
    trivial; now subst.
Qed.

(** Canonical mantissas and exponents order as the values they stand
    for. *)
Lemma canonical_value_lt (m1 m2 : positive) (e1 e2 ez : Z) :
  canonical m1 e1 -> canonical m2 e2 -> ez <= e1 -> ez <= e2 ->
  (e1 < e2 \/ (e1 = e2 /\ Zpos m1 < Zpos m2)
   <-> Zpos m1 * 2 ^ (e1 - ez) < Zpos m2 * 2 ^ (e2 - ez)).
Proof.
  intros C1 C2 H1 H2.
  assert (F : forall m1 m2 e1 e2,
             canonical m1 e1 -> canonical m2 e2 -> ez <= e1 -> ez <= e2 ->
             e1 < e2 \/ (e1 = e2 /\ Zpos m1 <= Zpos m2) ->
             Zpos m1 * 2 ^ (e1 - ez) <= Zpos m2 * 2 ^ (e2 - ez)).
  { clear. intros m1 m2 e1 e2 C1 C2 H1 H2 H.
    destruct (canonical_order m1 m2 e1 e2 C1 C2 H) as (L & V).
    replace (e2 - ez) with ((e2 - e1) + (e1 - ez)) by lia.
    rewrite Z.pow_add_r by lia.
    assert (0 < 2 ^ (e1 - ez)) by (apply Z.pow_pos_nonneg; lia).
    nia. }
  split.
  - intros [L|[-> L]].
    + unfold canonical in C1, C2.
      pose proof (digits2_pos_bounds m1) as B1.
      pose proof (digits2_pos_bounds m2) as B2.
      set (d1 := Zpos (digits2_pos m1)) in *.
      set (d2 := Zpos (digits2_pos m2)) in *.
      assert (1 <= d1) by (unfold d1; lia).
      assert (D2 : d2 = 53) by lia. rewrite D2 in B2.
      assert (P1 : 2 ^ d1 <= 2 ^ 53) by (apply Z.pow_le_mono_r; lia).
      assert (P2 : 2 ^ 1 <= 2 ^ (e2 - e1)) by (apply Z.pow_le_mono_r; lia).
      replace (e2 - ez) with ((e2 - e1) + (e1 - ez)) by lia.
      rewrite Z.pow_add_r by lia.
      assert (0 < 2 ^ (e1 - ez)) by (apply Z.pow_pos_nonneg; lia).
      change (2 ^ (53 - 1)) with 4503599627370496 in B2.
      change (2 ^ 53) with 9007199254740992 in P1. change (2 ^ 1) with 2 in P2.
      set (t := 2 ^ (e1 - ez)) in *. set (s := 2 ^ (e2 - e1)) in *.
      set (c := 2 ^ d1) in *. clearbody t s c.
      assert (Zpos m1 * t < 9007199254740992 * t) by nia.
      assert (9007199254740992 * t <= 2 * (Zpos m2 * t)) by nia.
      assert (2 * (Zpos m2 * t) <= s * (Zpos m2 * t)) by nia.
      lia.
    + assert (0 < 2 ^ (e2 - ez)) by (apply Z.pow_pos_nonneg; lia). nia.
  - intros V.
    destruct (Z.lt_trichotomy e1 e2) as [L|[E|G]]; [now left| |].
    + destruct (Z_lt_le_dec (Zpos m1) (Zpos m2)); [now right|].
      pose proof (F m2 m1 e2 e1 C2 C1 H2 H1 ltac:(right; lia)). lia.
    + pose proof (F m2 m1 e2 e1 C2 C1 H2 H1 ltac:(left; lia)). lia.
Qed.

Lemma SFltb_zero (x : spec_float) :
  SFltb (S754_zero false) x = positive_sf x.
Proof. destruct x as [s|s| |s m e]; trivial; now destruct s. Qed.

Lemma SFltb_key (x y : spec_float) :
  SFltb x y = true <-> not_nan x /\ not_nan y /\ key_lt (key x) (key y).
Proof.
  unfold SFltb. rewrite <- SFcompare_Lt.
  destruct (SFcompare x y) as [[| |]|]; split; intros H;
    try reflexivity; discriminate H.
Qed.

(** A difference is above zero exactly when its first operand is above
    the second. *)
Lemma SFsub_positive (x y : spec_float) :
  valid_binary x = true -> valid_binary y = true ->
  positive_sf (SFsub prec emax x y) = SFltb y x.
Proof.
  intros Vx Vy.
  destruct x as [sx|sx| |sx mx ex], y as [sy|sy| |sy my ey];
    try (try destruct sx; try destruct sy; reflexivity).
  apply valid_finite in Vx, Vy. destruct Vx as (Cx & _), Vy as (Cy & _).
  fold (canonical mx ex) in Cx. fold (canonical my ey) in Cy.
  cbn [SFsub]. cbv zeta.
  set (ez := Z.min ex ey).
  destruct (shl_align_value mx ex ez ltac:(lia)) as (X & _).
  destruct (shl_align_value my ey ez ltac:(lia)) as (Y & _).
  rewrite X, Y.
  assert (Hez : -1074 <= ez) by (unfold canonical in *; lia).
  pose proof (canonical_value_lt mx my ex ey ez Cx Cy ltac:(lia) ltac:(lia))
    as Lxy.
  pose proof (canonical_value_lt my mx ey ex ez Cy Cx ltac:(lia) ltac:(lia))
    as Lyx.
  assert (Px : 0 < Zpos mx * 2 ^ (ex - ez))
    by (apply Z.mul_pos_pos; [lia|apply Z.pow_pos_nonneg; lia]).
  assert (Py : 0 < Zpos my * 2 ^ (ey - ez))
    by (apply Z.mul_pos_pos; [lia|apply Z.pow_pos_nonneg; lia]).
  set (vx := Zpos mx * 2 ^ (ex - ez)) in *.
  set (vy := Zpos my * 2 ^ (ey - ez)) in *.
  clearbody vx vy.
  assert (K : SFltb (S754_finite sy my ey) (S754_finite sx mx ex) = true
              <-> cond_Zopp sy vy < cond_Zopp sx vx).
  { rewrite SFltb_key. unfold not_nan, key_lt.
    destruct sx, sy; cbn [key cond_Zopp];
      (split;
       [intros (_ & _ & H)
       |intros H; split; [discriminate|split; [discriminate|]]]);
      lia. }
  destruct (cond_Zopp sx vx - cond_Zopp sy vy) as [|m|m] eqn:D;
    cbn [binary_normalize].
  - cbn [positive_sf]. symmetry. apply not_true_is_false. rewrite K. lia.
  - rewrite binary_round_positive by trivial. symmetry. apply K. lia.
  - rewrite binary_round_negative. symmetry. apply not_true_is_false.
    rewrite K. lia.
Qed.

End Subtraction.

(** [a - b > 0] is [a > b], whatever the two numbers. *)
Lemma sub_positive (a b : float) : (0 <? a - b) = (b <? a).
Proof.
  rewrite !ltb_spec, sub_spec.
  change (Prim2SF 0) with (S754_zero false). rewrite SFltb_zero.
  apply SFsub_positive; apply Prim2SF_valid.
Qed.

(** ** Sorting *)


Lemma ltb_false_leb (x y : float) :
  is_nan x = false -> is_nan y = false ->
  (y <? x) = false -> (x <=? y) = true.
Proof.
  intros Nx Ny L. apply is_nan_false in Nx, Ny.
  apply leb_iff. repeat split; trivial.
  assert (L' : ~ key_lt (fkey y) (fkey x)).
  { intros K. assert ((y <? x) = true) by (apply ltb_iff; tauto).
    congruence. }
  unfold key_lt, key_le in *.
  destruct (fkey x) as [[? ?] ?], (fkey y) as [[? ?] ?]. lia.
Qed.

Lemma or_zero_number (v : field) : is_nan (or_zero v) = false.
Proof.
  destruct v as [f| |]; trivial. unfold or_zero, truthy_num.
  destruct (is_nan f) eqn:N; trivial. simpl. now destruct (f =? 0).
Qed.

Section Sorting.

Context {A : Type}.
Variable comparefn : A -> A -> float.

Lemma sort_insert_perm (x : A) (l : list A) :
  Permutation (sort_insert comparefn x l) (x :: l).
Proof.
  induction l as [|y l IH]; simpl; trivial.
  destruct (0 <? comparefn x y); trivial.
  rewrite IH. apply perm_swap.
Qed.

Lemma sort_perm (l : list A) : Permutation (sort comparefn l) l.
Proof.
  induction l as [|x l IH]; simpl; trivial.
  rewrite sort_insert_perm. now constructor.
Qed.

Variable P : A -> Prop.
Variable le : A -> A -> Prop.
Hypothesis le_of_after :
  forall x y, P x -> P y -> (0 <? comparefn x y) = true -> le y x.
Hypothesis le_of_not_after :
  forall x y, P x -> P y -> (0 <? comparefn x y) = false -> le x y.
Hypothesis le_trans :
  forall x y z, P x -> P y -> P z -> le x y -> le y z -> le x z.

Lemma sort_insert_sorted (x : A) (l : list A) :
  P x -> Forall P l -> StronglySorted le l ->
  StronglySorted le (sort_insert comparefn x l).
Proof.
  intros Px Pl S. induction S as [|y l S IH F]; simpl.
  - repeat constructor.
  - apply Forall_cons_iff in Pl. destruct Pl as (Py & Pl).
    destruct (0 <? comparefn x y) eqn:E.
    + constructor; [now apply IH|].
      apply (Permutation_Forall (Permutation_sym (sort_insert_perm x l))).
      constructor; trivial. now apply le_of_after.
    + assert (Lxy : le x y) by now apply le_of_not_after.
      constructor; [now constructor|].
      constructor; trivial.
      rewrite Forall_forall in *. intros z Hz.
      apply (le_trans x y z); auto.
Qed.

Lemma sort_sorted (l : list A) :
  Forall P l -> StronglySorted le (sort comparefn l).
Proof.
  induction l as [|x l IH]; simpl; intros F; [constructor|].
  apply Forall_cons_iff in F. destruct F as (Px & Pl).
  apply sort_insert_sorted; auto.
  apply (Permutation_Forall (Permutation_sym (sort_perm l))). exact Pl.
Qed.

End Sorting.

(** A stable sort keeps the order of the members of a class that the
    comparison function never puts after a member of another one. *)
Lemma sort_filter {A : Type} (comparefn : A -> A -> float) (p : A -> bool)
    (l : list A) :
  (forall x y, p x = true -> (0 <? comparefn x y) = true -> p y = false) ->
  filter p (sort comparefn l) = filter p l.
Proof.
  intros H.
  assert (I : forall x s, filter p (sort_insert comparefn x s)
                          = filter p (x :: s)).
  { intros x s. induction s as [|y s IH]; trivial. simpl.
    destruct (0 <? comparefn x y) eqn:E; trivial. simpl. rewrite IH. simpl.
    destruct (p x) eqn:Px; trivial. now rewrite (H x y Px E). }
  induction l as [|x l IH]; trivial. simpl. rewrite I. simpl.
  now rewrite IH.
Qed.






Lemma eqb_ltb_false (x y c : float) :
  (x =? c) = true -> (y <? x) = true -> (y =? c) = false.
Proof.
  intros E L. destruct (y =? c) eqn:E'; trivial. exfalso. by_keys.
Qed.

(** X15: when the records of the month have years that are numbers,
    [getMonthAcrossYears] returns exactly these records, in ascending
    order of the year, the records of one year in the order of the
    data. *)
Theorem month_across_years_sorted (data : option Data.t)
    (yearly : list WeatherRecord) (monthName : value) :
  yearly_of data = Some yearly ->
  Forall (fun d => value_strict_eq (month d) monthName = true ->
                   is_nan (ToNumber (year d)) = false) yearly ->
  let selected :=
    filter (fun d => value_strict_eq (month d) monthName) yearly in
  let result := getMonthAcrossYears data monthName in
  Permutation result selected
  /\ StronglySorted
       (fun a b => (ToNumber (year a) <=? ToNumber (year b)) = true) result
  /\ forall y : float,
       filter (fun d => ToNumber (year d) =? y) result
       = filter (fun d => ToNumber (year d) =? y) selected.
Proof.
  intros Hy Hnum selected result. unfold result, getMonthAcrossYears.
  rewrite Hy. fold selected.
  set (cmp := fun a b : WeatherRecord =>
                ToNumber (year a) - ToNumber (year b)).
  split; [apply sort_perm|]. split.
  - apply (sort_sorted cmp
             (fun d => is_nan (ToNumber (year d)) = false)); unfold cmp.
    + intros x y _ _ E. rewrite sub_positive in E. now apply ltb_leb.
    + intros x y Nx Ny E. rewrite sub_positive in E.
      now apply ltb_false_leb.
    + intros x y z _ _ _. apply leb_trans.
    + unfold selected. apply Forall_forall. intros d Hd.
      apply filter_In in Hd. destruct Hd as (Hd & Hm).
      rewrite Forall_forall in Hnum. now apply Hnum.
  - intros y. apply sort_filter. unfold cmp. intros a b E L.
    rewrite sub_positive in L. now apply (eqb_ltb_false _ _ _ E L).
Qed.

Lemma month_across_years_sorted_witness :
  let data :=
    Some (Data.mk None
            (Some [ {| year := Num 2021; month := VStr "Jan";
                       monthIndex := Num 0; date := VStr "2021-01";
                       temp := Num 4; tempMin := Num 1; tempMax := Num 7;
                       rainfall := Num 150; humidity := Num 80;
                       sunshine := Num 60; climatePattern := VUndefined;
                       extremeEvent := VUndefined |};
                    {| year := Num 2020; month := VStr "Jan";
                       monthIndex := Num 0; date := VStr "2020-01";
                       temp := Num 5; tempMin := Num 2; tempMax := Num 8;
                       rainfall := Num 140; humidity := Num 81;
                       sunshine := Num 55; climatePattern := VUndefined;
                       extremeEvent := VUndefined |} ])) in
  map year (getMonthAcrossYears data (VStr "Jan")) = [Num 2020; Num 2021]
  /\ StronglySorted
       (fun a b => (ToNumber (year a) <=? ToNumber (year b)) = true)
       (getMonthAcrossYears data (VStr "Jan")).
Proof.
  intros data. split; [reflexivity|].
  refine (proj1 (proj2 (month_across_years_sorted data _ (VStr "Jan")
                          eq_refl _))).
  repeat constructor.
Defined.

Lemma slice_prefix {A : Type} (l : list A) (n : Z) :
  slice l 0 n
  = firstn (Z.to_nat (slice_index (Z.of_nat (List.length l)) n)) l.
Proof.
  unfold slice. cbv zeta.
  assert (E : slice_index (Z.of_nat (List.length l)) 0 = 0%Z).
  { unfold slice_index. simpl. lia. }
  rewrite E. simpl. now rewrite Z.sub_0_r.
Qed.

(** X16: [getExtremeRecords] returns the head of the records ranked by
    the metric, a value that is missing, [NaN] or zero counting as [0]:
    for the type ["max"] no record, returned or left out, has a higher
    value than one that is returned before it, and for any other type no
    lower one.  A limit from [0] on gives that many records, or all of
    them if there are fewer. *)
Theorem extreme_records_ranked (data : option Data.t)
    (yearly : list WeatherRecord) (metric : Metric) (type : value)
    (limit : option Z) :
  yearly_of data = Some yearly ->
  let value := fun d => or_zero (metric_of d metric) in
  let result := getExtremeRecords data metric type limit in
  exists rest,
    Permutation (result ++ rest) yearly
    /\ StronglySorted
         (fun a b =>
            (if value_strict_eq (type_or_max type) (VStr "max")
             then value b <=? value a else value a <=? value b) = true)
         (result ++ rest)
    /\ ((0 <= limit_or_5 limit)%Z ->
        List.length result
        = Nat.min (Z.to_nat (limit_or_5 limit)) (List.length yearly)).
Proof.
  intros Hy value result. unfold result, getExtremeRecords. rewrite Hy.
  cbv zeta. fold value.
  set (cmp := fun a b : WeatherRecord =>
                if value_strict_eq (type_or_max type) (VStr "max")
                then value b - value a else value a - value b).
  change (sort _ yearly) with (sort cmp yearly).
  rewrite slice_prefix.
  pose proof (sort_perm cmp yearly) as Perm.
  set (sorted := sort cmp yearly) in *.
  set (n := Z.to_nat (slice_index (Z.of_nat (List.length sorted))
                                  (limit_or_5 limit))).
  exists (skipn n sorted). rewrite firstn_skipn. split; trivial. split.
  - assert (N : forall d, is_nan (value d) = false)
      by (intros d; apply or_zero_number).
    apply (sort_sorted cmp (fun _ => True)); unfold cmp.
    + intros x y _ _ E.
      destruct (value_strict_eq (type_or_max type) (VStr "max"));
        rewrite sub_positive in E; now apply ltb_leb.
    + intros x y _ _ E.
      destruct (value_strict_eq (type_or_max type) (VStr "max"));
        rewrite sub_positive in E; now apply ltb_false_leb.
    + intros x y z _ _ _.
      destruct (value_strict_eq (type_or_max type) (VStr "max"));
        intros L1 L2; [apply (leb_trans _ (value y))|
                       apply (leb_trans _ (value y))]; trivial.
    + apply Forall_forall. trivial.
  - intros Hl. rewrite length_firstn. unfold n.
    rewrite (Permutation_length Perm). unfold slice_index.
    destruct (limit_or_5 limit <? 0)%Z eqn:E; [apply Z.ltb_lt in E; lia|].
    lia.
Qed.

Lemma extreme_records_ranked_witness :
  List.length (getExtremeRecords (Some (Data.mk None (Some two_years)))
                 Mtemp VUndefined (Some 2%Z))
  = 2%nat.
Proof.
  destruct (extreme_records_ranked
              (Some (Data.mk None (Some two_years))) two_years Mtemp
              VUndefined (Some 2%Z) eq_refl) as (rest & _ & _ & L).
  apply L. discriminate.
Defined.

(** ** Anomalies and missing values *)

Lemma ltb_nan_r (x : float) : (x <? nan) = false.
Proof.
  rewrite ltb_spec. change (Prim2SF nan) with S754_nan.
  now destruct (Prim2SF x) as [s|s| |s m e].
Qed.

Lemma mul_zero_not_below_zero (t : float) : (t * 0 <? 0) = false.
Proof.
  rewrite ltb_spec, mul_spec. change (Prim2SF 0) with (S754_zero false).
  destruct (Prim2SF t) as [s|s| |s m e]; trivial; now destruct s.
Qed.

Lemma no_present_value (data : list WeatherRecord) (metric : Metric) :
  Forall (fun d => present (metric_of d metric) = false) data ->
  filter present (map (fun d => metric_of d metric) data) = [].
Proof.
  induction 1 as [|d data Hd F IH]; simpl; trivial. now rewrite Hd.
Qed.

(** X17: a record whose value of the metric is [undefined] is never
    reported as an anomaly, whatever the threshold and the other records:
    its deviation is [NaN], which exceeds no bound. *)
Theorem detectAnomalies_skips_undefined
    (Math_pow : float -> float -> float) (data : list WeatherRecord)
    (metric : Metric) (threshold : float) :
  Forall (fun d => In d data /\ metric_of d metric <> Undefined)
         (detectAnomalies Math_pow data metric threshold).
Proof.
  apply Forall_forall. intros d Hd. unfold detectAnomalies in Hd.
  apply filter_In in Hd. destruct Hd as (Hin & Hd). split; trivial.
  intros E. rewrite E in Hd. cbn [ToNumber] in Hd.
  rewrite sub_nan_l in Hd. change (abs nan) with nan in Hd.
  rewrite ltb_nan_r in Hd. discriminate.
Qed.

(** X18: when no record carries a value of the metric, no record is an
    anomaly, whatever the threshold: the mean and the deviation are [0],
    a [null] value counts as [0], and [0] does not exceed the bound. *)
Theorem detectAnomalies_no_values
    (Math_pow : float -> float -> float) (data : list WeatherRecord)
    (metric : Metric) (threshold : float) :
  Forall (fun d => present (metric_of d metric) = false) data ->
  detectAnomalies Math_pow data metric threshold = [].
Proof.
  intros H. unfold detectAnomalies, anomaly_mean, anomaly_stdDev.
  rewrite (no_present_value data metric H). cbn [map calculateAverage].
  change (sqrt 0) with 0.
  induction H as [|d data Hd F IH]; trivial. simpl. rewrite IH.
  destruct (metric_of d metric) as [v| |]; [discriminate Hd| |];
    cbn [ToNumber].
  - change (abs (0 - 0)) with 0. now rewrite mul_zero_not_below_zero.
  - rewrite sub_nan_l. change (abs nan) with nan. now rewrite ltb_nan_r.
Qed.

Lemma detectAnomalies_no_values_witness :
  detectAnomalies square_pow
    [ obs (Num 2020) Null (Num 100) (Num 80) (Num 5);
      obs (Num 2021) Undefined (Num 90) (Num 78) (Num 7) ]
    Mtemp neg_infinity
  = [].
Proof.
  apply detectAnomalies_no_values. repeat constructor.
Defined.
